(** * Recipe catalog: listing filters, pagination and engagement

    A shallow embedding of [routes/recipes.js] and of the [Recipe] model
    (the schema that declares [ratings] and the [averageRating] virtual),
    with the properties of the catalog stated over it.

    Conventions of the embedding:
    - a MongoDB collection is the list of its documents, in insertion order;
      [findById] reads the first document with the given [_id] and [save]
      writes that document back in place;
    - an [ObjectId] is the text that names it; a handler is given first on
      ids that are ObjectIds, and then as the route that casts its path
      parameter ([castId]) and answers 500 where the cast throws;
    - a query is refused by the store when a numeric bound of its filter is
      [NaN] or its [skip] is negative, and the handler then answers 500; the
      cast of a filter runs the [trim] setter on the values of [cuisine] and
      [ingredients.name];
    - strings are sequences of one-byte characters;
    - integers of the JavaScript code are [Z]; [parseInt] gives the nearest
      binary64 number, and the one place where the code divides
      ([averageRating]) is modelled by an exact binary64 quotient;
    - every handler is a function from the state to a response and the next
      state; the clock ([Date.now]) and the id generator are arguments. *)

From stdpp Require Import base list strings sorting.
From Stdlib Require Import ZArith Lia Ascii DecimalString.
From Stdlib Require Import DecimalN.

Local Open Scope Z_scope.

(** ** JavaScript primitives used by the handlers *)

Module JS.

(** The result of [parseInt]: an integer or [NaN]. *)
Inductive number :=
  | NaN
  | Num (z : Z).

#[global] Instance number_eq_dec : EqDecision number.
Proof. solve_decision. Defined.

(** [parseInt(s) || d]: [NaN] and [0] are falsy. *)
Definition or_default (n : number) (d : Z) : Z :=
  match n with
  | NaN => d
  | Num z => if z =? 0 then d else z
  end.

(** A string is truthy when it is not empty; an absent query parameter
    ([undefined]) is falsy. *)
Definition truthy (p : option string) : bool :=
  match p with
  | Some (String _ _) => true
  | _ => false
  end.

(** White space and line terminators among the one-byte characters: TAB, LF,
    VT, FF, CR, SP and the no-break space U+00A0. *)
Definition is_space (c : Ascii.ascii) : bool :=
  let n := Ascii.N_of_ascii c in
  ((9 <=? n) && (n <=? 13))%N || (n =? 32)%N || (n =? 160)%N.

Fixpoint skip_spaces (s : string) : string :=
  match s with
  | String c t => if is_space c then skip_spaces t else s
  | EmptyString => s
  end.

(** [s.trim()], the setter of the schema's [trim: true] paths. *)
Definition trim (s : string) : string :=
  String.rev (skip_spaces (String.rev (skip_spaces s))).

(** Value of a character as a digit of the given radix. *)
Definition digit_of (radix : Z) (c : Ascii.ascii) : option Z :=
  let n := Z.of_N (Ascii.N_of_ascii c) in
  let v :=
    if (48 <=? n) && (n <=? 57) then Some (n - 48)
    else if (97 <=? n) && (n <=? 122) then Some (n - 87)
    else if (65 <=? n) && (n <=? 90) then Some (n - 55)
    else None in
  match v with
  | Some d => if d <? radix then Some d else None
  | None => None
  end.

(** Longest prefix of digits, accumulated left to right; [None] when the
    string does not start with a digit. *)
Fixpoint digits_from (radix : Z) (acc : option Z) (s : string) : option Z :=
  match s with
  | String c t =>
      match digit_of radix c with
      | Some d => digits_from radix (Some (radix * default 0 acc + d)) t
      | None => acc
      end
  | EmptyString => acc
  end.

Definition strip_sign (s : string) : Z * string :=
  match s with
  | String "-"%char t => (-1, t)
  | String "+"%char t => (1, t)
  | _ => (1, s)
  end.

Definition strip_radix (s : string) : Z * string :=
  match s with
  | String "0"%char (String "x"%char t) => (16, t)
  | String "0"%char (String "X"%char t) => (16, t)
  | _ => (10, s)
  end.

(** Nearest integer to [num / den], ties to even. *)
Definition round_half_even (num den : Z) : Z :=
  let q := num / den in
  let r := num mod den in
  if 2 * r <? den then q
  else if den <? 2 * r then q + 1
  else if Z.even q then q else q + 1.

(** The binary64 number nearest to a non-negative integer: itself below
    [2^53], and beyond that the nearest multiple of the power of two that
    leaves 53 significant bits (overflow to [Infinity], past [2^1024], is not
    modelled). *)
Definition to_double (n : Z) : Z :=
  let sh := Z.log2 n - 52 in
  if sh <=? 0 then n else round_half_even n (2 ^ sh) * 2 ^ sh.

(** [parseInt(s)] with no radix argument; the result is a Number. *)
Definition parseInt (s : string) : number :=
  let '(sign, s1) := strip_sign (skip_spaces s) in
  let '(radix, s2) := strip_radix s1 in
  match digits_from radix None s2 with
  | Some n => Num (sign * to_double n)
  | None => NaN
  end.

(** [s.split(',')] and the like: the pieces between separators, empty
    pieces included. *)
Fixpoint split_on (sep : Ascii.ascii) (s : string) : list string :=
  match s with
  | EmptyString => [EmptyString]
  | String c t =>
      if Ascii.eqb c sep then EmptyString :: split_on sep t
      else match split_on sep t with
           | w :: ws => String c w :: ws
           | [] => [String c EmptyString]
           end
  end.

(** A binary64 value [(-1)^neg * mant * 2^expo]. *)
Record double := mkDouble { neg : bool; mant : Z; expo : Z }.

(** The quotient of two positive integers rounded to 53 bits, as binary64
    division does for operands below [2^53]. *)
Definition fdiv_pos (p q : Z) : double :=
  let lp := Z.log2 p in
  let lq := Z.log2 q in
  let e := lp - lq - (if p * 2 ^ lq <? q * 2 ^ lp then 1 else 0) in
  let sh := 52 - e in
  let num := p * 2 ^ Z.max sh 0 in
  let den := q * 2 ^ Z.max (- sh) 0 in
  mkDouble false (round_half_even num den) (- sh).

(** [p / q] for an integer [p] and a positive integer [q]. *)
Definition fdiv (p q : Z) : double :=
  if p =? 0 then mkDouble false 0 0
  else if p <? 0 then
    let d := fdiv_pos (- p) q in mkDouble true (mant d) (expo d)
  else fdiv_pos p q.

(** The integer [n] nearest to [10 * x], the larger one on a tie, for a
    non-negative [x = mant * 2^expo]. *)
Definition tenths (x : double) : Z :=
  if 0 <=? expo x then 10 * mant x * 2 ^ expo x
  else (20 * mant x + 2 ^ (- expo x)) / (2 * 2 ^ (- expo x)).

Definition decimal (n : Z) : string :=
  NilZero.string_of_uint (N.to_uint (Z.to_N n)).

(** The digits of [n] tenths with the point before the last one. *)
Definition render_tenths (n : Z) : string :=
  decimal (n / 10) +:+ "." +:+ decimal (n mod 10).

(** [x.toFixed(1)], for [|x| < 10^21]. *)
Definition toFixed1 (x : double) : string :=
  (if neg x then "-" else "") +:+ render_tenths (tenths x).

End JS.

(** ** Data model ([models/Recipe.js], and the part of [User] the routes use) *)

(** An ObjectId, by the text that names it. The handlers below take ids
    that are ObjectIds already: the acting user's [req.user._id], the ids of
    stored documents, and a path parameter after its cast ([castId]); the
    routes with the cast in front are [rate_route] and its like. *)
Definition objectId := string.

Record ingredient := mkIngredient { i_name : string; i_amount : string }.

Record instruction := mkInstruction { s_step : Z; s_description : string }.

(** An entry of [ratings]: [{ user, rating, createdAt }]. *)
Record rating := mkRating {
  rt_user : objectId;
  rt_rating : Z;
  rt_createdAt : Z
}.

(** An entry of [comments]: [{ user, text, createdAt }]. *)
Record comment := mkComment {
  cm_user : objectId;
  cm_text : string;
  cm_createdAt : Z
}.

Record recipe := mkRecipe {
  _id : objectId;
  title : string;
  description : string;
  image : string;
  ingredients : list ingredient;
  instructions : list instruction;
  prepTime : Z;
  cookTime : Z;
  servings : Z;
  calories : option Z;
  difficulty : string;
  cuisine : string;
  diet : string;
  author : objectId;
  ratings : list rating;
  comments : list comment;
  tags : list string;
  createdAt : Z;
  updatedAt : Z
}.

(** Modelled from the spec: the [User] model ([models/User.js]) is not among
    the sources; the routes use its [_id] and its [favoriteRecipes], a list of
    recipe ids. *)
Record user := mkUser {
  u_id : objectId;
  favoriteRecipes : list objectId
}.

(** The two collections. *)
Record state := mkState {
  recipes : list recipe;
  users : list user
}.

Definition empty_state : state := mkState [] [].

Definition set_ratings (rs : list rating) (r : recipe) : recipe :=
  mkRecipe (_id r) (title r) (description r) (image r) (ingredients r)
    (instructions r) (prepTime r) (cookTime r) (servings r) (calories r)
    (difficulty r) (cuisine r) (diet r) (author r) rs (comments r) (tags r)
    (createdAt r) (updatedAt r).

Definition set_comments (cs : list comment) (r : recipe) : recipe :=
  mkRecipe (_id r) (title r) (description r) (image r) (ingredients r)
    (instructions r) (prepTime r) (cookTime r) (servings r) (calories r)
    (difficulty r) (cuisine r) (diet r) (author r) (ratings r) cs (tags r)
    (createdAt r) (updatedAt r).

Definition set_favoriteRecipes (fs : list objectId) (u : user) : user :=
  mkUser (u_id u) fs.

(** ** Derived values (the schema's virtuals) *)

(** What the [averageRating] getter returns: the number [0] or the string
    made by [toFixed]. *)
Inductive jsval :=
  | JNum (z : Z)
  | JStr (s : string).

Definition rating_sum (rs : list rating) : Z :=
  foldl (fun acc x => acc + rt_rating x) 0 rs.

Definition averageRating (r : recipe) : jsval :=
  if (length (ratings r) =? 0)%nat then JNum 0
  else JStr (JS.toFixed1
               (JS.fdiv (rating_sum (ratings r)) (Z.of_nat (length (ratings r))))).

Definition totalTime (r : recipe) : Z := prepTime r + cookTime r.

(** ** The store: [findById] and [save] *)

Definition has_id (id : objectId) (r : recipe) : bool := String.eqb (_id r) id.

(** [Recipe.findById] on an id that is an ObjectId: the document with that
    [_id], if there is one. The cast of a path parameter is [castId]. *)
Definition findById (rs : list recipe) (id : objectId) : option recipe :=
  List.find (has_id id) rs.

(** [doc.save()] of a document read by [findById]: the stored document with
    its [_id] is replaced. *)
Fixpoint save (d : recipe) (rs : list recipe) : list recipe :=
  match rs with
  | [] => []
  | r :: rest => if has_id (_id d) r then d :: rest else r :: save d rest
  end.

Definition user_has_id (id : objectId) (u : user) : bool := String.eqb (u_id u) id.

Definition findUserById (us : list user) (id : objectId) : option user :=
  List.find (user_has_id id) us.

Fixpoint saveUser (d : user) (us : list user) : list user :=
  match us with
  | [] => []
  | u :: rest => if user_has_id (u_id d) u then d :: rest else u :: saveUser d rest
  end.

(** ** Replies of the handlers *)

Inductive reply :=
  | Created (r : recipe)        (* 201, the stored recipe *)
  | Rated                       (* 200 'Recipe rated successfully' *)
  | Commented (c : comment)     (* 200, the appended comment *)
  | FavoriteAdded               (* 200 'Recipe added to favorites' *)
  | FavoriteRemoved             (* 200 'Recipe removed from favorites' *)
  | ValidationErrors            (* 400, the validators' errors *)
  | AlreadyFavorited            (* 400 'Recipe already in favorites' *)
  | RecipeNotFound              (* 404 'Recipe not found' *)
  | ServerError.                (* 500 'Server error' *)

(** ** POST /:id/rate *)

(** [body('rating').isInt({ min: 1, max: 5 })]. *)
Definition valid_rating (v : Z) : bool := (1 <=? v) && (v <=? 5).

Definition rated_by (uid : objectId) (x : rating) : bool :=
  String.eqb (rt_user x) uid.

(** [existingRating.rating = v] on the entry returned by [find]: the first
    entry of the user is overwritten where it stands. *)
Fixpoint overwrite_first (uid : objectId) (v : Z) (rs : list rating) : list rating :=
  match rs with
  | [] => []
  | x :: rest =>
      if rated_by uid x then mkRating (rt_user x) v (rt_createdAt x) :: rest
      else x :: overwrite_first uid v rest
  end.

Definition upsert_rating (now : Z) (uid : objectId) (v : Z) (rs : list rating)
  : list rating :=
  match List.find (rated_by uid) rs with
  | Some _ => overwrite_first uid v rs
  | None => rs ++ [mkRating uid v now]
  end.

(** The handler on the recipe id that the cast of [req.params.id] gives;
    where the cast fails the route answers 500 ([rate_route]). *)
Definition rate (now : Z) (id uid : objectId) (v : Z) (st : state)
  : reply * state :=
  if negb (valid_rating v) then (ValidationErrors, st)
  else match findById (recipes st) id with
       | None => (RecipeNotFound, st)
       | Some r =>
           let r' := set_ratings (upsert_rating now uid v (ratings r)) r in
           (Rated, mkState (save r' (recipes st)) (users st))
       end.

(** ** POST /:id/comment *)

(** The schema's checks on a comment's text when the recipe is saved:
    [required] and [maxlength: 500], after the [trim] setter. *)
Definition comment_text_ok (t : string) : bool :=
  negb (String.eqb t "") && (String.length t <=? 500)%nat.

(** The handler on the recipe id that the cast of [req.params.id] gives
    ([comment_route] has the cast). *)
Definition add_comment (now : Z) (id uid : objectId) (text : string) (st : state)
  : reply * state :=
  if String.eqb text "" then (ValidationErrors, st)
  else match findById (recipes st) id with
       | None => (RecipeNotFound, st)
       | Some r =>
           let c := mkComment uid (JS.trim text) now in
           if negb (comment_text_ok (cm_text c)) then (ServerError, st)
           else
             let r' := set_comments (comments r ++ [c]) r in
             (Commented c, mkState (save r' (recipes st)) (users st))
       end.

(** ** POST and DELETE /:id/favorite *)

(** [favoriteRecipes.includes(recipe._id)]: membership by id value. *)
Definition includes (fs : list objectId) (id : objectId) : bool :=
  existsb (String.eqb id) fs.

(** POST: the handler on the recipe id that the cast of [req.params.id]
    gives ([favorite_add_route] has the cast). *)
Definition favorite_add (id uid : objectId) (st : state) : reply * state :=
  match findById (recipes st) id with
  | None => (RecipeNotFound, st)
  | Some r =>
      match findUserById (users st) uid with
      | None => (ServerError, st)
      | Some u =>
          if includes (favoriteRecipes u) (_id r) then (AlreadyFavorited, st)
          else
            let u' := set_favoriteRecipes (favoriteRecipes u ++ [_id r]) u in
            (FavoriteAdded, mkState (recipes st) (saveUser u' (users st)))
      end
  end.

(** DELETE: [id.toString() !== req.params.id] keeps the stored ids whose
    text differs from the parameter, which is taken as it came. *)
Definition favorite_remove (id uid : objectId) (st : state) : reply * state :=
  match findUserById (users st) uid with
  | None => (ServerError, st)
  | Some u =>
      let fs := List.filter (fun x => negb (String.eqb x id)) (favoriteRecipes u) in
      let u' := set_favoriteRecipes fs u in
      (FavoriteRemoved, mkState (recipes st) (saveUser u' (users st)))
  end.

(** [favorite(userId, recipeId, add)] of the specification. *)
Definition favorite (uid id : objectId) (add : bool) (st : state) : reply * state :=
  if add then favorite_add id uid st else favorite_remove id uid st.

(** ** POST / (create) *)

(** The request body. [new Recipe({ ...req.body, author })] takes every
    schema path the body carries, the [ratings], [comments], [tags],
    [createdAt] and [updatedAt] among them. The entries of [ratings] and
    [comments] are taken as a user with a value or a text, without a date of
    their own; the [_id] is an argument of [create]. *)
Record recipeBody := mkBody {
  b_title : string;
  b_description : string;
  b_image : string;
  b_ingredients : list ingredient;
  b_instructions : list instruction;
  b_prepTime : Z;
  b_cookTime : Z;
  b_servings : Z;
  b_calories : option Z;
  b_difficulty : string;
  b_cuisine : string;
  b_diet : string;
  b_ratings : list (objectId * Z);
  b_comments : list (objectId * string);
  b_tags : list string;
  b_createdAt : option Z;
  b_updatedAt : option Z
}.

Definition difficulties : list string := ["Easy"; "Medium"; "Hard"]%string.

Definition diets : list string :=
  ["Vegetarian"; "Vegan"; "Gluten-Free"; "Keto"; "Paleo"; "Regular"]%string.

Definition isIn (xs : list string) (x : string) : bool := existsb (String.eqb x) xs.

Definition notEmpty (x : string) : bool := negb (String.eqb x "").

(** The route's validators. *)
Definition body_checks (b : recipeBody) : bool :=
  notEmpty (b_title b) && notEmpty (b_description b)
  && (1 <=? length (b_ingredients b))%nat
  && (1 <=? length (b_instructions b))%nat
  && isIn difficulties (b_difficulty b)
  && notEmpty (b_cuisine b)
  && isIn diets (b_diet b).

(** The document built from the body, setters applied; [Date.now] fills
    the two dates where the body brings none. *)
Definition new_recipe (now : Z) (fresh author : objectId) (b : recipeBody) : recipe :=
  mkRecipe fresh (JS.trim (b_title b)) (b_description b) (b_image b)
    (map (fun i => mkIngredient (JS.trim (i_name i)) (JS.trim (i_amount i)))
         (b_ingredients b))
    (map (fun i => mkInstruction (s_step i) (JS.trim (s_description i)))
         (b_instructions b))
    (b_prepTime b) (b_cookTime b) (b_servings b) (b_calories b)
    (b_difficulty b) (JS.trim (b_cuisine b)) (b_diet b) author
    (map (fun x => mkRating (fst x) (snd x) now) (b_ratings b))
    (map (fun x => mkComment (fst x) (JS.trim (snd x)) now) (b_comments b))
    (map JS.trim (b_tags b))
    (default now (b_createdAt b)) (default now (b_updatedAt b)).

(** The schema's validators, run by [save]. *)
Definition schema_valid (r : recipe) : bool :=
  notEmpty (title r) && (String.length (title r) <=? 100)%nat
  && (String.length (description r) <=? 1000)%nat
  && notEmpty (image r)
  && forallb (fun i => notEmpty (i_name i) && notEmpty (i_amount i)) (ingredients r)
  && forallb (fun i => notEmpty (s_description i)) (instructions r)
  && (0 <=? prepTime r) && (0 <=? cookTime r) && (1 <=? servings r)
  && from_option (Z.leb 0) true (calories r)
  && isIn difficulties (difficulty r)
  && notEmpty (cuisine r)
  && isIn diets (diet r)
  && forallb (fun x => valid_rating (rt_rating x)) (ratings r)
  && forallb (fun c => comment_text_ok (cm_text c)) (comments r).

(** The handler. [fresh] is the [_id] of the new document, the one
    [new Recipe] generates unless the body brings its own; an insertion under
    an [_id] that is taken is refused by the collection. *)
Definition create (now : Z) (fresh uid : objectId) (b : recipeBody) (st : state)
  : reply * state :=
  if negb (body_checks b) then (ValidationErrors, st)
  else
    let r := new_recipe now fresh uid b in
    if negb (schema_valid r) then (ServerError, st)
    else match findById (recipes st) fresh with
         | Some _ => (ServerError, st)
         | None => (Created r, mkState (recipes st ++ [r]) (users st))
         end.

(** ** The catalog's operations as one step function *)

Inductive operation :=
  | OpCreate (now : Z) (fresh uid : objectId) (b : recipeBody)
  | OpRate (now : Z) (id uid : objectId) (v : Z)
  | OpComment (now : Z) (id uid : objectId) (text : string)
  | OpFavorite (uid id : objectId) (add : bool).

Definition step (o : operation) (st : state) : reply * state :=
  match o with
  | OpCreate now fresh uid b => create now fresh uid b st
  | OpRate now id uid v => rate now id uid v st
  | OpComment now id uid text => add_comment now id uid text st
  | OpFavorite uid id add => favorite uid id add st
  end.

(** The state after a sequence of operations. *)
Definition run (os : list operation) (st : state) : state :=
  foldl (fun s o => snd (step o s)) st os.

(** States the operations can reach from a store that has users but no
    recipe yet. *)
Definition reachable (st : state) : Prop :=
  exists us os, st = run os (mkState [] us).

(** The ratings of recipe [id] given by user [uid]. *)
Definition ratings_of (st : state) (id uid : objectId) : list rating :=
  match findById (recipes st) id with
  | Some r => List.filter (rated_by uid) (ratings r)
  | None => []
  end.

(** At most one rating entry per user in every recipe. *)
Definition one_rating_per_user (st : state) : Prop :=
  Forall (fun r => NoDup (map rt_user (ratings r))) (recipes st).

(** ** GET / : the filter builder *)

(** [req.query]: each parameter is absent or a string, that is, given at
    most once (a repeated parameter, which arrives as an array, is not
    covered). *)
Record query := mkQuery {
  q_page : option string;
  q_limit : option string;
  q_cuisine : option string;
  q_diet : option string;
  q_difficulty : option string;
  q_search : option string;
  q_maxPrepTime : option string;
  q_maxCookTime : option string;
  q_maxCalories : option string;
  q_ingredients : option string
}.

Definition no_query : query :=
  mkQuery None None None None None None None None None None.

(** The filter object handed to [Recipe.find]; [None] is a key the builder
    did not set. *)
Record filter := mkFilter {
  f_cuisine : option string;
  f_diet : option string;
  f_difficulty : option string;
  f_text : option string;            (* $text: { $search } *)
  f_prepTime : option JS.number;     (* { $lte } *)
  f_cookTime : option JS.number;     (* { $lte } *)
  f_calories : option JS.number;     (* { $lte } *)
  f_ingredients : option (list string)  (* 'ingredients.name': { $in } *)
}.

(** The value seen by the body of [if (req.query.x) ...]. *)
Definition supplied (p : option string) : option string :=
  if JS.truthy p then p else None.

Definition build_filter (q : query) : filter :=
  mkFilter
    (supplied (q_cuisine q))
    (supplied (q_diet q))
    (supplied (q_difficulty q))
    (supplied (q_search q))
    (JS.parseInt <$> supplied (q_maxPrepTime q))
    (JS.parseInt <$> supplied (q_maxCookTime q))
    (JS.parseInt <$> supplied (q_maxCalories q))
    (JS.split_on ","%char <$> supplied (q_ingredients q)).

(** [parseInt(req.query.page) || 1]; [parseInt(undefined)] is [NaN]. *)
Definition parse_param (p : option string) : JS.number :=
  match p with
  | Some s => JS.parseInt s
  | None => JS.NaN
  end.

Definition page_of (q : query) : Z := JS.or_default (parse_param (q_page q)) 1.

Definition limit_of (q : query) : Z := JS.or_default (parse_param (q_limit q)) 12.

(** ** The store's query evaluation *)

(** [{ field: value }]: equality of the stored string with the value of the
    condition, which is the value the cast to the schema leaves ([matches]
    runs the setters). *)
Definition eq_match (c : option string) (x : string) : bool :=
  match c with
  | Some v => String.eqb x v
  | None => true
  end.

(** [{ field: { $lte: bound } }]: a stored number below the bound; nothing
    is below [NaN], and a document without the field does not match. *)
Definition lte_match (c : option JS.number) (x : option Z) : bool :=
  match c with
  | None => true
  | Some JS.NaN => false
  | Some (JS.Num n) =>
      match x with
      | Some v => v <=? n
      | None => false
      end
  end.

(** [Recipe.find] and [countDocuments] cast the filter to the schema before
    they query: a [$lte] bound that is [NaN] fails the cast to [Number] and
    the query is rejected. *)
Definition castable_bound (c : option JS.number) : bool :=
  match c with
  | Some JS.NaN => false
  | _ => true
  end.

Definition castable (f : filter) : bool :=
  castable_bound (f_prepTime f)
  && castable_bound (f_cookTime f)
  && castable_bound (f_calories f).

(** [{ 'ingredients.name': { $in: names } }]: some ingredient is named by one
    of the given names. The query is cast to the schema first, and the
    [trim] setter of [ingredients.name] trims each name. *)
Definition in_match (c : option (list string)) (ings : list ingredient) : bool :=
  match c with
  | None => true
  | Some names =>
      existsb (fun i => existsb (String.eqb (i_name i)) (map JS.trim names)) ings
  end.

(** [.sort({ createdAt: -1 })]. *)
Definition newest_first (a b : recipe) : Prop := createdAt b <= createdAt a.

#[global] Instance newest_first_dec a b : Decision (newest_first a b).
Proof. unfold newest_first. apply _. Defined.

(** [Math.ceil(total / limit)] for a non-zero [limit]. *)
Definition ceil_div (total limit : Z) : Z := - ((- total) / limit).

Record pagination := mkPagination {
  currentPage : Z;
  totalPages : Z;
  totalRecipes : Z;
  hasNext : bool;
  hasPrev : bool
}.

Inductive listing :=
  | Listing (items : list recipe) (p : pagination)   (* 200 *)
  | ListingError.                                    (* 500 'Server error' *)

Section Listing.

(** The text index of the store ([$text] over title, description and
    ingredient names) is a capability of the database. *)
Variable text_search : string -> recipe -> bool.

Definition text_match (c : option string) (r : recipe) : bool :=
  match c with
  | Some s => text_search s r
  | None => true
  end.

(** A document matches a filter object when it matches every key. The cast
    of the query to the schema runs the setters of the paths: [cuisine] has
    [trim], [diet] and [difficulty] have none. *)
Definition matches (f : filter) (r : recipe) : bool :=
  eq_match (JS.trim <$> f_cuisine f) (cuisine r)
  && eq_match (f_diet f) (diet r)
  && eq_match (f_difficulty f) (difficulty r)
  && text_match (f_text f) r
  && lte_match (f_prepTime f) (Some (prepTime r))
  && lte_match (f_cookTime f) (Some (cookTime r))
  && lte_match (f_calories f) (calories r)
  && in_match (f_ingredients f) (ingredients r).

(** [Recipe.find(filter).sort({ createdAt: -1 })]. *)
Definition find_sorted (f : filter) (rs : list recipe) : list recipe :=
  merge_sort newest_first (List.filter (matches f) rs).

(** [Recipe.countDocuments(filter)]. *)
Definition countDocuments (f : filter) (rs : list recipe) : Z :=
  Z.of_nat (length (List.filter (matches f) rs)).

(** The handler of [GET /]. A filter that cannot be cast and a negative
    [skip] make the query throw, and the handler's [catch] answers 500; the
    store reads a negative [limit] as its absolute value. The product
    [(page - 1) * limit] is taken exactly, as the code does while it stays
    below [2^53]. *)
Definition list_recipes (q : query) (st : state) : listing :=
  let page := page_of q in
  let limit := limit_of q in
  let skip := (page - 1) * limit in
  let f := build_filter q in
  if negb (castable f) || (skip <? 0) then ListingError
  else
    let items :=
      take (Z.to_nat (Z.abs limit))
           (drop (Z.to_nat skip) (find_sorted f (recipes st))) in
    let total := countDocuments f (recipes st) in
    Listing items
      (mkPagination page (ceil_div total limit) total
         (page <? ceil_div total limit) (1 <? page)).

End Listing.

(** ** GET /popular *)

(** The sort key of ['ratings.rating': -1]: for an array path a descending
    sort compares the largest element; a recipe without ratings has no key
    and comes after every recipe that has one. *)
Definition top_rating (r : recipe) : option Z :=
  match ratings r with
  | [] => None
  | x :: rest => Some (foldl (fun m y => Z.max m (rt_rating y)) (rt_rating x) rest)
  end.

Definition key_lt (a b : option Z) : Prop :=
  match a, b with
  | None, Some _ => True
  | Some x, Some y => x < y
  | _, None => False
  end.

#[global] Instance key_lt_dec a b : Decision (key_lt a b).
Proof. destruct a, b; simpl; apply _. Defined.

(** [.sort({ 'ratings.rating': -1, createdAt: -1 })]: [a] may stand before
    [b]. *)
Definition popular_order (a b : recipe) : Prop :=
  key_lt (top_rating b) (top_rating a)
  \/ (top_rating a = top_rating b /\ createdAt b <= createdAt a).

#[global] Instance popular_order_dec a b : Decision (popular_order a b).
Proof. unfold popular_order. apply _. Defined.

Definition popular (st : state) : list recipe :=
  take 12 (merge_sort popular_order (recipes st)).

(** ** The properties, in the words of the specification *)

(** The mean of the ratings in tenths, rounded half up:
    [floor (10 * sum / len + 1/2)]. *)
Definition half_up_tenths (r : recipe) : Z :=
  let len := Z.of_nat (length (ratings r)) in
  (20 * rating_sum (ratings r) + len) / (2 * len).

(** The mean lies exactly halfway between two tenths. *)
Definition exact_tie (r : recipe) : Prop :=
  let len := Z.of_nat (length (ratings r)) in
  (20 * rating_sum (ratings r) + len) mod (2 * len) = 0.

(** A rating value the schema and the route accept. *)
Definition in_range (x : rating) : Prop := 1 <= rt_rating x <= 5.

(** A creation whose body carries at most one rating per user; the other
    operations carry no ratings list. *)
Definition clean_body (o : operation) : Prop :=
  match o with
  | OpCreate _ _ _ b => NoDup (map fst (b_ratings b))
  | _ => True
  end.

(** A parameter is supplied with value [s] when it is present and not
    empty. *)
Definition given (p : option string) (s : string) : Prop :=
  p = Some s /\ s <> ""%string.

(** The stored number is at most the integer the parameter reads as. *)
Definition at_most (s : string) (x : option Z) : Prop :=
  exists n v, JS.parseInt s = JS.Num n /\ x = Some v /\ v <= n.

(** Some ingredient bears one of the comma-separated names, blanks around a
    name aside. *)
Definition names_ingredient (s : string) (ings : list ingredient) : Prop :=
  exists i, i ∈ ings /\ i_name i ∈ map JS.trim (JS.split_on ","%char s).

(** A recipe satisfies every constraint of the supplied parameters. *)
Definition satisfies_supplied (text_search : string -> recipe -> bool)
    (q : query) (r : recipe) : Prop :=
  (forall s, given (q_cuisine q) s -> cuisine r = JS.trim s) /\
  (forall s, given (q_diet q) s -> diet r = s) /\
  (forall s, given (q_difficulty q) s -> difficulty r = s) /\
  (forall s, given (q_search q) s -> text_search s r = true) /\
  (forall s, given (q_maxPrepTime q) s -> at_most s (Some (prepTime r))) /\
  (forall s, given (q_maxCookTime q) s -> at_most s (Some (cookTime r))) /\
  (forall s, given (q_maxCalories q) s -> at_most s (calories r)) /\
  (forall s, given (q_ingredients q) s -> names_ingredient s (ingredients r)).

(** The three numeric parameters of a query. *)
Definition bound_params (q : query) : list (option string) :=
  [q_maxPrepTime q; q_maxCookTime q; q_maxCalories q].

(** [Some ""] read as an absent parameter. *)
Definition absent_if_empty (p : option string) : option string :=
  match p with
  | Some EmptyString => None
  | _ => p
  end.

(** The query with its empty filter parameters left out. *)
Definition without_empty (q : query) : query :=
  mkQuery (q_page q) (q_limit q)
    (absent_if_empty (q_cuisine q)) (absent_if_empty (q_diet q))
    (absent_if_empty (q_difficulty q)) (absent_if_empty (q_search q))
    (absent_if_empty (q_maxPrepTime q)) (absent_if_empty (q_maxCookTime q))
    (absent_if_empty (q_maxCalories q)) (absent_if_empty (q_ingredients q)).

(** The value of [averageRating] in tenths, [0] for a recipe without
    ratings. *)
Definition average_tenths (r : recipe) : Z :=
  if (length (ratings r) =? 0)%nat then 0
  else JS.tenths (JS.fdiv (rating_sum (ratings r)) (Z.of_nat (length (ratings r)))).

(** The order the specification gives to the popular listing: by average
    rating, then by creation time, both descending. *)
Definition average_order (a b : recipe) : Prop :=
  average_tenths b < average_tenths a
  \/ (average_tenths a = average_tenths b /\ createdAt b <= createdAt a).

(** ** Sample data *)

Definition pasta_with (rs : list (objectId * Z)) : recipeBody :=
  mkBody "Pasta" "Boil, drain, serve." "pasta.png"
    [mkIngredient "spaghetti" "200 g"] [mkInstruction 1 "Boil the pasta."]
    10 15 2 None "Easy" "Italian" "Regular" rs [] [] None None.

(** A creation whose body brings two ratings of user [u1]. *)
Definition dup_ops : list operation :=
  [OpCreate 100 "r1" "u1" (pasta_with [("u1", 5); ("u1", 4)])].

Definition dup_state : state := run dup_ops empty_state.

Definition dup_rated_twice : state :=
  run (dup_ops ++ [OpRate 200 "r1" "u1" 3; OpRate 300 "r1" "u1" 2]) empty_state.

(** A stored recipe with the given id, creation time and ratings. *)
Definition sample (id : objectId) (t : Z) (rs : list rating) : recipe :=
  mkRecipe id "Pasta" "Boil, drain, serve." "pasta.png"
    [mkIngredient "spaghetti" "200 g"] [mkInstruction 1 "Boil the pasta."]
    10 15 2 None "Easy" "Italian" "Regular" "u0" rs [] [] t t.

(** Ratings by distinct users [u0], [u1], ... with the given values. *)
Definition ratings_by_users (vs : list Z) : list rating :=
  imap (fun i v => mkRating ("u" +:+ JS.decimal (Z.of_nat i)) v 0) vs.

(** Nine ratings of 2 and eleven of 3: the mean is 2.55. *)
Definition mean_2_55 : recipe :=
  sample "r1" 0 (ratings_by_users (replicate 9 2 ++ replicate 11 3)).

Definition rated_5_4_3 : recipe := sample "r1" 0 (ratings_by_users [5; 4; 3]).

(** Two recipes: the older one rated 5 and 1, the newer one rated 4 twice. *)
Definition split_opinions : recipe := sample "r1" 100 (ratings_by_users [5; 1]).

Definition steady_fours : recipe := sample "r2" 200 (ratings_by_users [4; 4]).

Definition two_recipes : state := mkState [split_opinions; steady_fours] [].

(** Twenty-five recipes created at times 0 to 24. *)
Definition store25 : state :=
  mkState (map (fun i => sample ("r" +:+ JS.decimal (Z.of_nat i)) (Z.of_nat i) [])
               (seq 0 25)) [].

Definition page_query (page limit : string) : query :=
  mkQuery (Some page) (Some limit) None None None None None None None None.

Definition italian_20 : query :=
  mkQuery None None (Some "Italian") None None None (Some "20") None None None.

(** The cuisine given with blanks around it, a bound on the calories, and
    two ingredient names with a blank after the comma. *)
Definition italian_spaced : query :=
  mkQuery None None (Some " Italian ") None None None None None (Some "400")
    (Some "rice, spaghetti").

Definition prep_abc : query :=
  mkQuery None None None None None None (Some "abc") None None None.

(** A text index that matches every document; the samples below do not
    search. *)
Definition any_text (s : string) (r : recipe) : bool := true.

Definition one_user : state :=
  mkState [sample "r1" 0 []] [mkUser "u1" ["r1"]].

(** ** The read routes of [routes/recipes.js] *)

(** The answer of a route that reads one document. *)
Inductive read_reply (A : Type) :=
  | Found (a : A)     (* 200 *)
  | Missing.          (* 404 *)

Arguments Found {A} a.
Arguments Missing {A}.

(** GET /:id, on the id that the cast of the parameter gives
    ([get_recipe_route] has the cast). *)
Definition get_recipe (id : objectId) (st : state) : read_reply recipe :=
  match findById (recipes st) id with
  | Some r => Found r
  | None => Missing
  end.

(** [{ author: userId }]. *)
Definition by_author (uid : objectId) (r : recipe) : bool :=
  String.eqb (author r) uid.

(** GET /user/:userId: [Recipe.find({ author }).sort({ createdAt: -1 })], on
    the id that the cast of the parameter gives ([user_recipes_route] has the
    cast). *)
Definition user_recipes (uid : objectId) (st : state) : list recipe :=
  merge_sort newest_first (List.filter (by_author uid) (recipes st)).

(** ** The routes of the users router *)

(** [.populate('favoriteRecipes')]: the referenced recipes, in the order of
    the ids; an id without a recipe is left out. The selection of fields
    ([select], the second argument of [populate]) is presentation and is not
    modelled: the documents are given whole. *)
Definition populate (rs : list recipe) (ids : list objectId) : list recipe :=
  omap (findById rs) ids.

(** GET /:id/favorites, on the id that the cast of the parameter gives
    ([get_favorites_route] has the cast). *)
Definition get_favorites (id : objectId) (st : state) : read_reply (list recipe) :=
  match findUserById (users st) id with
  | None => Missing
  | Some u => Found (populate (recipes st) (favoriteRecipes u))
  end.

(** What GET /:id of the users router sends: the user with the favourites
    populated, and the user's own recipes. *)
Record profile_view := mkProfileView {
  pv_user : user;
  pv_favorites : list recipe;
  pv_recipes : list recipe
}.

(** GET /:id of the users router, on the id that the cast of the parameter
    gives ([get_profile_route] has the cast). *)
Definition get_profile (id : objectId) (st : state) : read_reply profile_view :=
  match findUserById (users st) id with
  | None => Missing
  | Some u =>
      Found (mkProfileView u (populate (recipes st) (favoriteRecipes u))
               (user_recipes id st))
  end.

(** Modelled from the spec: the profile fields of [User] (username, bio,
    avatar); [models/User.js] is not among the sources. The record serves as
    the request body of PUT /:id and as the [updateData] object. *)
Record profileFields := mkProfileFields {
  pf_username : option string;
  pf_bio : option string;
  pf_avatar : option string
}.

Inductive update_reply :=
  | Forbidden                           (* 403 'Not authorized' *)
  | UpdateInvalid                       (* 400, the validators' errors *)
  | UpdateIssued (d : profileFields).   (* findByIdAndUpdate(id, d) is called *)

(** [isLength({ min, max })] on a string of one-byte characters. *)
Definition isLength (lo hi : nat) (s : string) : bool :=
  (lo <=? String.length s)%nat && (String.length s <=? hi)%nat.

(** [.optional()]: an absent field passes. *)
Definition optional (check : string -> bool) (p : option string) : bool :=
  from_option check true p.

(** PUT /:id of the users router, up to the call of the store. *)
Definition update_profile (authed id : objectId) (b : profileFields) : update_reply :=
  if negb (String.eqb authed id) then Forbidden
  else if negb (optional (isLength 3 20) (pf_username b)
                && optional (isLength 0 500) (pf_bio b))
  then UpdateInvalid
  else UpdateIssued
         (mkProfileFields (supplied (pf_username b)) (supplied (pf_bio b))
            (supplied (pf_avatar b))).

(** ** Further properties, as predicates *)

(** The success replies of the mutations. *)
Definition is_success (r : reply) : bool :=
  match r with
  | Created _ | Rated | Commented _ | FavoriteAdded | FavoriteRemoved => true
  | _ => false
  end.

(** [b] is [a] up to its ratings and comments. *)
Definition same_core (a b : recipe) : Prop :=
  set_comments (comments a) (set_ratings (ratings a) b) = a.

(** Who rated and when. *)
Definition stamp (x : rating) : objectId * Z := (rt_user x, rt_createdAt x).

(** A later version of a stored recipe: the same document, with comments
    added at the end and rating entries kept. *)
Definition evolves (a b : recipe) : Prop :=
  same_core a b
  /\ comments a `prefix_of` comments b
  /\ map stamp (ratings a) `prefix_of` map stamp (ratings b).

(** No user has a recipe twice among the favourites. *)
Definition distinct_favorites (st : state) : Prop :=
  Forall (fun u => NoDup (favoriteRecipes u)) (users st).

(** The character occurs in the string. *)
Fixpoint has_char (c : Ascii.ascii) (s : string) : bool :=
  match s with
  | EmptyString => false
  | String d t => Ascii.eqb d c || has_char c t
  end.

(** The pieces put together again with the separator between them. *)
Fixpoint join_with (sep : Ascii.ascii) (ws : list string) : string :=
  match ws with
  | [] => EmptyString
  | [w] => w
  | w :: rest => w +:+ String sep (join_with sep rest)
  end.

(** A query that gives one parameter only, the upper bound of the
    preparation time. *)
Definition max_prep (s : string) : query :=
  mkQuery None None None None None None (Some s) None None None.

(** A query that gives the ingredient names only. *)
Definition with_ingredients (s : string) : query :=
  mkQuery None None None None None None None None None (Some s).

(** ** More sample data *)

Definition two_users : state :=
  mkState [sample "r1" 10 []; sample "r2" 20 []]
          [mkUser "u0" []; mkUser "u1" ["r2"]].

Definition long_name : string := "the name of a user, too long".

(** Every stored recipe passes the schema. *)
Definition all_valid (st : state) : Prop :=
  Forall (fun r => schema_valid r = true) (recipes st).

(** The number written by a string of decimal digits, continuing [acc]. *)
Fixpoint uint_value (acc : Z) (d : Decimal.uint) : Z :=
  match d with
  | Decimal.Nil => acc
  | Decimal.D0 l => uint_value (10 * acc) l
  | Decimal.D1 l => uint_value (10 * acc + 1) l
  | Decimal.D2 l => uint_value (10 * acc + 2) l
  | Decimal.D3 l => uint_value (10 * acc + 3) l
  | Decimal.D4 l => uint_value (10 * acc + 4) l
  | Decimal.D5 l => uint_value (10 * acc + 5) l
  | Decimal.D6 l => uint_value (10 * acc + 6) l
  | Decimal.D7 l => uint_value (10 * acc + 7) l
  | Decimal.D8 l => uint_value (10 * acc + 8) l
  | Decimal.D9 l => uint_value (10 * acc + 9) l
  end.

(** A recipe whose ingredient names hold commas. *)
Definition comma_recipe : recipe :=
  mkRecipe "r3" "Salad" "Toss and serve." "salad.png"
    [mkIngredient "salt, fine" "1 pinch"; mkIngredient "oil, olive" "2 tbsp"]
    [mkInstruction 1 "Toss."]
    5 0 1 None "Easy" "Greek" "Vegan" "u0" [] [] [] 30 30.

(** ** Path parameters and the routes as the router runs them *)

(** A hex digit of either case. *)
Definition is_hex (c : Ascii.ascii) : bool :=
  let n := Ascii.N_of_ascii c in
  (((48 <=? n) && (n <=? 57)) || ((65 <=? n) && (n <=? 70))
   || ((97 <=? n) && (n <=? 102)))%N.

(** The digit as [toString] writes it: A to F in lower case. *)
Definition lower_hex (c : Ascii.ascii) : Ascii.ascii :=
  let n := Ascii.N_of_ascii c in
  if ((65 <=? n) && (n <=? 70))%N then Ascii.ascii_of_N (n + 32) else c.

Fixpoint hex_digits (s : string) : option string :=
  match s with
  | EmptyString => Some EmptyString
  | String c t => if is_hex c then String (lower_hex c) <$> hex_digits t else None
  end.

(** The cast of a path parameter to an ObjectId, which [Recipe.findById],
    [User.findById] and [Recipe.find({ author })] run before they look
    anything up. An ObjectId is modelled by the text [toString] gives it, 24
    hex digits in lower case; the parameter is any text. A text of 24 hex
    digits of either case names an id; on any other text the cast throws a
    CastError, which lands in the handler's catch-all ([None] here). This is
    the cast of the current driver; older ones also read a text of 12
    characters as an id. *)
Definition castId (raw : string) : option objectId :=
  if (String.length raw =? 24)%nat then hex_digits raw else None.

(** POST /:id/rate from the request on: the validator's verdict, then
    [Recipe.findById(req.params.id)] with its cast, then the handler [rate]
    on the id the cast gives. *)
Definition rate_route (now : Z) (raw : string) (uid : objectId) (v : Z) (st : state)
  : reply * state :=
  if negb (valid_rating v) then (ValidationErrors, st)
  else match castId raw with
       | None => (ServerError, st)
       | Some id => rate now id uid v st
       end.

(** POST /:id/comment from the request on. *)
Definition comment_route (now : Z) (raw : string) (uid : objectId) (text : string)
  (st : state) : reply * state :=
  if String.eqb text "" then (ValidationErrors, st)
  else match castId raw with
       | None => (ServerError, st)
       | Some id => add_comment now id uid text st
       end.

(** POST /:id/favorite from the request on. *)
Definition favorite_add_route (raw : string) (uid : objectId) (st : state)
  : reply * state :=
  match castId raw with
  | None => (ServerError, st)
  | Some id => favorite_add id uid st
  end.

(** The two favourite routes. DELETE casts nothing: its handler compares the
    text of each stored id with the parameter as it came, which is
    [favorite_remove] on that text. *)
Definition favorite_route (uid : objectId) (raw : string) (add : bool) (st : state)
  : reply * state :=
  if add then favorite_add_route raw uid st else favorite_remove raw uid st.

(** GET /:id from the request on; [None] is the 500 of the catch-all. *)
Definition get_recipe_route (raw : string) (st : state) : option (read_reply recipe) :=
  match castId raw with
  | None => None
  | Some id => Some (get_recipe id st)
  end.


(** GET /:id and GET /:id/favorites of the users router from the request
    on. *)
Definition get_profile_route (raw : string) (st : state)
  : option (read_reply profile_view) :=
  match castId raw with
  | None => None
  | Some id => Some (get_profile id st)
  end.

Definition get_favorites_route (raw : string) (st : state)
  : option (read_reply (list recipe)) :=
  match castId raw with
  | None => None
  | Some id => Some (get_favorites id st)
  end.

(** A store whose ids are written out in full. *)
Definition soup_id : objectId := "64b7f3a2c9e1d45a6b8c0d1e".

Definition cook_id : objectId := "64b7f3a2c9e1d45a6b8c0d2f".

Definition soup : recipe :=
  mkRecipe soup_id "Soup" "Simmer and serve." "soup.png"
    [mkIngredient "leek" "2"] [mkInstruction 1 "Simmer."]
    10 30 4 None "Easy" "French" "Vegan" cook_id [] [] [] 0 0.

Definition cast_store : state := mkState [soup] [mkUser cook_id [soup_id]].

Example parseInt_plain : JS.parseInt "20" = JS.Num 20.
Proof. reflexivity. Qed.

Example parseInt_prefix : JS.parseInt " -12abc" = JS.Num (-12).
Proof. reflexivity. Qed.

Example parseInt_hex : JS.parseInt "0x1F" = JS.Num 31.
Proof. reflexivity. Qed.

Example parseInt_word : JS.parseInt "abc" = JS.NaN.
Proof. reflexivity. Qed.

Example parseInt_nbsp : JS.parseInt (String (Ascii.ascii_of_N 160) "20") = JS.Num 20.
Proof. reflexivity. Qed.

Example parseInt_beyond_2_53 :
  JS.parseInt "9007199254740993" = JS.Num 9007199254740992.
Proof. reflexivity. Qed.

Example castId_upper :
  castId "64B7F3A2C9E1D45A6B8C0D1E" = Some soup_id.
Proof. reflexivity. Qed.

Example castId_short : castId "r9" = None.
Proof. reflexivity. Qed.

Example castId_no_hex : castId "64b7f3a2c9e1d45a6b8c0d1g" = None.
Proof. reflexivity. Qed.

Example rate_route_malformed :
  rate_route 200 "r9" cook_id 3 cast_store = (ServerError, cast_store).
Proof. reflexivity. Qed.

Example favorite_route_upper :
  favorite_route cook_id "64B7F3A2C9E1D45A6B8C0D1E" true
    (mkState [soup] [mkUser cook_id []])
  = (FavoriteAdded, mkState [soup] [mkUser cook_id [soup_id]]).
Proof. reflexivity. Qed.

Example parseInt_empty : JS.parseInt "" = JS.NaN.
Proof. reflexivity. Qed.

Example split_on_commas : JS.split_on ","%char "a,,b" = ["a"; ""; "b"]%string.
Proof. reflexivity. Qed.

Example toFixed1_quarter : JS.toFixed1 (JS.fdiv 5 4) = "1.3"%string.
Proof. vm_compute. reflexivity. Qed.

Example toFixed1_51_20 : JS.toFixed1 (JS.fdiv 51 20) = "2.5"%string.
Proof. vm_compute. reflexivity. Qed.

Example toFixed1_47_20 : JS.toFixed1 (JS.fdiv 47 20) = "2.4"%string.
Proof. vm_compute. reflexivity. Qed.

Example toFixed1_23_20 : JS.toFixed1 (JS.fdiv 23 20) = "1.1"%string.
Proof. vm_compute. reflexivity. Qed.

Example toFixed1_1_20 : JS.toFixed1 (JS.fdiv 1 20) = "0.1"%string.
Proof. vm_compute. reflexivity. Qed.

Example toFixed1_whole : JS.toFixed1 (JS.fdiv 12 3) = "4.0"%string.
Proof. vm_compute. reflexivity. Qed.

(** * averageRating *)

Lemma round_half_even_near num den :
  0 < den -> 2 * Z.abs (JS.round_half_even num den * den - num) <= den.
Proof.
  intros Hden. unfold JS.round_half_even.
  pose proof (Z.div_mod num den ltac:(lia)) as Hdm.
  pose proof (Z.mod_pos_bound num den Hden) as Hr.
  repeat case_match; rewrite ?Z.ltb_lt, ?Z.ltb_ge in *; nia.
Qed.

(** The binary exponent chosen by [fdiv_pos] is that of the quotient. *)
Lemma fdiv_exponent p q :
  0 < q -> q <= p ->
  let e := Z.log2 p - Z.log2 q
           - (if p * 2 ^ Z.log2 q <? q * 2 ^ Z.log2 p then 1 else 0) in
  0 <= e /\ e <= Z.log2 p /\ q * 2 ^ e <= p.
Proof.
  intros Hq Hqp.
  destruct (Z.log2_spec p ltac:(lia)) as [Hp1 Hp2].
  destruct (Z.log2_spec q Hq) as [Hq1 Hq2].
  pose proof (Z.log2_le_mono q p Hqp) as Hl.
  pose proof (Z.log2_nonneg q) as Hlq.
  set (lp := Z.log2 p) in *. set (lq := Z.log2 q) in *.
  assert (Hpow : 2 ^ lp = 2 ^ (lp - lq) * 2 ^ lq).
  { rewrite <- Z.pow_add_r by lia. f_equal. lia. }
  assert (0 < 2 ^ lq) by (apply Z.pow_pos_nonneg; lia).
  assert (0 < 2 ^ (lp - lq)) by (apply Z.pow_pos_nonneg; lia).
  cbv zeta. case_match; rewrite ?Z.ltb_lt, ?Z.ltb_ge in *.
  - assert (lp <> lq) by (intros E; rewrite E in *; nia).
    assert (Hs : 2 ^ (lp - lq) = 2 * 2 ^ (lp - lq - 1)).
    { rewrite <- Z.pow_succ_r by lia. f_equal. lia. }
    replace (Z.succ lq) with (lq + 1) in Hq2 by lia.
    rewrite Z.pow_add_r in Hq2 by lia.
    assert (0 < 2 ^ (lp - lq - 1)) by (apply Z.pow_pos_nonneg; lia).
    split; [lia|]. split; [lia|]. nia.
  - rewrite Z.sub_0_r. split; [lia|]. split; [lia|]. nia.
Qed.

Lemma div_between a d h : 0 < d -> d * h <= a < d * (h + 1) -> a / d = h.
Proof. intros Hd Hb. symmetry. apply (Z.div_unique a d h (a - d * h)); lia. Qed.

(** The tenth printed for the binary64 quotient [p / q] is the half-up
    rounding of the exact quotient, or the tenth below it when the exact
    quotient is a midpoint that the binary quotient falls short of. *)
Lemma tenths_fdiv p q :
  0 < q -> q <= p -> 10 * p < 2 ^ 52 ->
  let n := JS.tenths (JS.fdiv p q) in
  let h := (20 * p + q) / (2 * q) in
  JS.neg (JS.fdiv p q) = false /\
  (n = h \/ ((20 * p + q) mod (2 * q) = 0 /\ n = h - 1)).
Proof.
  intros Hq Hqp Hp. cbv zeta.
  unfold JS.fdiv.
  destruct (Z.eqb_spec p 0) as [|_]; [lia|].
  destruct (Z.ltb_spec p 0) as [|_]; [lia|].
  unfold JS.fdiv_pos.
  destruct (fdiv_exponent p q Hq Hqp) as (He0 & Hele & Hqe).
  set (e := Z.log2 p - Z.log2 q - _) in *.
  assert (Hlp : Z.log2 p < 52).
  { apply Z.log2_lt_pow2; lia. }
  unfold JS.tenths; cbn [JS.neg JS.mant JS.expo].
  split; [reflexivity|].
  destruct (Z.leb_spec 0 (- (52 - e))) as [|_]; [lia|].
  rewrite Z.opp_involutive.
  rewrite (Z.max_l (52 - e) 0) by lia.
  rewrite (Z.max_r (- (52 - e)) 0) by lia.
  rewrite Z.pow_0_r, Z.mul_1_r.
  set (D := 2 ^ (52 - e)).
  assert (HD : 2 ^ 52 = 2 ^ e * D).
  { unfold D. rewrite <- Z.pow_add_r by lia. f_equal. lia. }
  assert (HDpos : 0 < D) by (apply Z.pow_pos_nonneg; lia).
  assert (Hepos : 0 < 2 ^ e) by (apply Z.pow_pos_nonneg; lia).
  assert (HDq : 10 * q < D) by nia.
  pose proof (round_half_even_near (p * D) q Hq) as Hm.
  set (m := JS.round_half_even (p * D) q) in *.
  pose proof (Z.div_mod (20 * p + q) (2 * q) ltac:(lia)) as Hdm.
  pose proof (Z.mod_pos_bound (20 * p + q) (2 * q) ltac:(lia)) as Hr.
  set (h := (20 * p + q) / (2 * q)) in *.
  set (r := (20 * p + q) mod (2 * q)) in *.
  assert (Hup : (20 * m + D) * q < 2 * D * (h + 1) * q) by nia.
  destruct (Z.eq_dec r 0) as [Hr0|Hr0].
  - assert (Hlo : 2 * D * (h - 1) * q <= (20 * m + D) * q) by nia.
    destruct (Z_lt_le_dec (20 * m + D) (2 * D * h)) as [Hlt|Hge].
    + right. split; [exact Hr0|]. apply div_between; nia.
    + left. apply div_between; nia.
  - left. apply div_between; [lia|].
    assert (Hlo : 2 * D * h * q <= (20 * m + D) * q) by nia.
    nia.
Qed.

Lemma rating_sum_app rs x : rating_sum (rs ++ [x]) = rating_sum rs + rt_rating x.
Proof. unfold rating_sum. by rewrite foldl_app. Qed.

Lemma rating_sum_bounds rs :
  Forall in_range rs ->
  Z.of_nat (length rs) <= rating_sum rs <= 5 * Z.of_nat (length rs).
Proof.
  induction rs as [|x rs IH] using rev_ind; intros Hall.
  - unfold rating_sum. simpl. lia.
  - apply Forall_app in Hall as [Hrs Hx].
    rewrite Forall_singleton in Hx. unfold in_range in Hx.
    rewrite rating_sum_app, length_app, Nat2Z.inj_add. simpl.
    specialize (IH Hrs). lia.
Qed.

(** C3 (amended): [averageRating] depends on the ratings list alone. It is
    the number 0 for an empty list. For a non-empty list of ratings between
    1 and 5 it is a string, the one-decimal rendering of the mean rounded
    half up, except that a mean lying exactly halfway between two tenths may
    be rendered as the tenth below (the binary64 quotient decides). *)
Theorem averageRating_rounding (r : recipe) :
  Forall in_range (ratings r) ->
  Z.of_nat (length (ratings r)) < 2 ^ 46 ->
  (forall r', ratings r' = ratings r -> averageRating r' = averageRating r) /\
  (ratings r = [] -> averageRating r = JNum 0) /\
  (ratings r <> [] ->
   exists n, averageRating r = JStr (JS.render_tenths n) /\
             (n = half_up_tenths r \/ (exact_tie r /\ n = half_up_tenths r - 1))).
Proof.
  intros Hall Hlen. unfold averageRating. split; [|split].
  - by intros r' ->.
  - intros ->. reflexivity.
  - intros Hne.
    pose proof (rating_sum_bounds _ Hall) as Hsum.
    assert (Hpos : 0 < Z.of_nat (length (ratings r))).
    { destruct (ratings r); [done | simpl; lia]. }
    destruct (Nat.eqb_spec (length (ratings r)) 0) as [E|_]; [lia|].
    destruct (tenths_fdiv (rating_sum (ratings r)) (Z.of_nat (length (ratings r))))
      as [Hneg Hn]; [lia | lia | lia |].
    eexists. split.
    + unfold JS.toFixed1. rewrite Hneg. reflexivity.
    + exact Hn.
Qed.

(** The ratings 5, 4, 3 give the string 4.0. *)
Lemma averageRating_rounding_witness :
  Forall in_range (ratings rated_5_4_3) /\
  Z.of_nat (length (ratings rated_5_4_3)) < 2 ^ 46 /\
  averageRating rated_5_4_3 = JStr "4.0" /\
  exists n, averageRating rated_5_4_3 = JStr (JS.render_tenths n) /\
            (n = half_up_tenths rated_5_4_3
             \/ (exact_tie rated_5_4_3 /\ n = half_up_tenths rated_5_4_3 - 1)).
Proof.
  assert (Hr : Forall in_range (ratings rated_5_4_3)).
  { repeat constructor; vm_compute; discriminate. }
  assert (Hl : Z.of_nat (length (ratings rated_5_4_3)) < 2 ^ 46) by reflexivity.
  split; [exact Hr|]. split; [exact Hl|]. split; [vm_compute; reflexivity|].
  destruct (averageRating_rounding rated_5_4_3 Hr Hl) as (_ & _ & Hn).
  apply Hn. discriminate.
Defined.

(** C3 (as stated): nine ratings of 2 and eleven of 3 have the mean 2.55,
    which rounds half up to 2.6; the getter returns the string 2.5. The
    ratings 5, 4, 3 give a string, not a number. *)
Lemma averageRating_not_half_up :
  Forall in_range (ratings mean_2_55) /\
  rating_sum (ratings mean_2_55) = 51 /\ length (ratings mean_2_55) = 20%nat /\
  averageRating mean_2_55 = JStr "2.5" /\
  JS.render_tenths (half_up_tenths mean_2_55) = "2.6"%string /\
  averageRating rated_5_4_3 = JStr "4.0" /\
  averageRating rated_5_4_3 <> JNum 4.
Proof.
  split.
  { apply Forall_forall. intros x Hx. unfold in_range.
    apply list_elem_of_In in Hx. vm_compute in Hx.
    repeat (destruct Hx as [<-|Hx]; [vm_compute; split; discriminate|]).
    destruct Hx. }
  repeat split; try (vm_compute; reflexivity). discriminate.
Qed.

(** * The store and the rating upsert *)

Lemma set_ratings_id rs r : _id (set_ratings rs r) = _id r.
Proof. reflexivity. Qed.

Lemma findById_id rs id r : findById rs id = Some r -> _id r = id.
Proof.
  unfold findById. intros H. apply find_some in H as [_ H].
  unfold has_id in H. by apply String.eqb_eq in H.
Qed.

Lemma findById_In rs id r : findById rs id = Some r -> r ∈ rs.
Proof.
  unfold findById. intros H. apply find_some in H as [H _].
  by apply list_elem_of_In.
Qed.

Lemma findById_save rs d r :
  findById rs (_id d) = Some r -> findById (save d rs) (_id d) = Some d.
Proof.
  unfold findById. induction rs as [|x rs IH]; simpl; [done|].
  destruct (has_id (_id d) x) eqn:E.
  - intros _. simpl. unfold has_id. by rewrite String.eqb_refl.
  - intros H. simpl. rewrite E. auto.
Qed.

Lemma save_Forall (P : recipe -> Prop) d rs :
  Forall P rs -> P d -> Forall P (save d rs).
Proof.
  intros Hrs Hd. induction Hrs as [|x rs Hx Hrs IH]; simpl; [constructor|].
  destruct (has_id (_id d) x); by constructor.
Qed.

Lemma rated_by_eq uid x : rated_by uid x = true <-> rt_user x = uid.
Proof. unfold rated_by. apply String.eqb_eq. Qed.

Lemma overwrite_first_users uid v rs :
  map rt_user (overwrite_first uid v rs) = map rt_user rs.
Proof.
  induction rs as [|x rs IH]; simpl; [done|].
  destruct (rated_by uid x); simpl; [done | by rewrite IH].
Qed.

Lemma overwrite_first_length uid v rs :
  length (overwrite_first uid v rs) = length rs.
Proof.
  induction rs as [|x rs IH]; simpl; [done|].
  destruct (rated_by uid x); simpl; [done | by rewrite IH].
Qed.

Lemma overwrite_first_filter uid v rs x :
  List.find (rated_by uid) rs = Some x ->
  exists tl,
    List.filter (rated_by uid) rs = x :: tl /\
    List.filter (rated_by uid) (overwrite_first uid v rs)
    = mkRating uid v (rt_createdAt x) :: tl.
Proof.
  induction rs as [|y rs IH]; simpl; [done|].
  destruct (rated_by uid y) eqn:E.
  - intros [= ->]. exists (List.filter (rated_by uid) rs). split; [done|].
    simpl. unfold rated_by at 1. simpl.
    apply rated_by_eq in E. rewrite E, String.eqb_refl. done.
  - intros H. destruct (IH H) as (tl & H1 & H2). exists tl. simpl.
    by rewrite E.
Qed.

Lemma find_none_filter uid rs :
  List.find (rated_by uid) rs = None -> List.filter (rated_by uid) rs = [].
Proof.
  induction rs as [|y rs IH]; simpl; [done|].
  destruct (rated_by uid y); [done | auto].
Qed.

(** After an upsert the user's entries start with one that holds the new
    value; the entries that were there after the first one remain. *)
Lemma upsert_rating_filter now uid v rs :
  exists x,
    List.filter (rated_by uid) (upsert_rating now uid v rs)
    = x :: tail (List.filter (rated_by uid) rs) /\
    rt_user x = uid /\ rt_rating x = v.
Proof.
  unfold upsert_rating. destruct (List.find (rated_by uid) rs) as [x|] eqn:E.
  - destruct (overwrite_first_filter uid v rs x E) as (tl & H1 & H2).
    eexists. rewrite H2, H1. done.
  - rewrite List.filter_app, (find_none_filter _ _ E). simpl.
    unfold rated_by at 1. simpl. rewrite String.eqb_refl. eauto.
Qed.

Lemma upsert_rating_length_present now uid v rs :
  List.filter (rated_by uid) rs <> [] ->
  length (upsert_rating now uid v rs) = length rs.
Proof.
  unfold upsert_rating. destruct (List.find (rated_by uid) rs) eqn:E.
  - intros _. apply overwrite_first_length.
  - intros H. by rewrite (find_none_filter _ _ E) in H.
Qed.

Lemma upsert_rating_NoDup now uid v rs :
  NoDup (map rt_user rs) -> NoDup (map rt_user (upsert_rating now uid v rs)).
Proof.
  unfold upsert_rating. destruct (List.find (rated_by uid) rs) eqn:E.
  - by rewrite overwrite_first_users.
  - intros H. rewrite map_app. simpl.
    apply NoDup_app. split; [done|]. split; [|apply NoDup_singleton].
    intros u Hu Hin. apply list_elem_of_singleton in Hin as ->.
    apply list_elem_of_fmap in Hu as (x & Hx & Hin).
    apply list_elem_of_In in Hin.
    pose proof (find_none _ _ E x Hin) as Hno.
    apply not_true_iff_false in Hno. apply Hno. by apply rated_by_eq.
Qed.

Lemma rate_found now id uid v st r :
  valid_rating v = true ->
  findById (recipes st) id = Some r ->
  rate now id uid v st
  = (Rated, mkState (save (set_ratings (upsert_rating now uid v (ratings r)) r)
                          (recipes st)) (users st)).
Proof. intros Hv Hr. unfold rate. by rewrite Hv, Hr. Qed.

Lemma rate_found_lookup now id uid v st r :
  valid_rating v = true ->
  findById (recipes st) id = Some r ->
  findById (recipes (rate now id uid v st).2) id
  = Some (set_ratings (upsert_rating now uid v (ratings r)) r).
Proof.
  intros Hv Hr. rewrite (rate_found _ _ _ _ _ _ Hv Hr). simpl.
  pose proof (findById_id _ _ _ Hr) as Hid. subst id.
  apply (findById_save (recipes st) (set_ratings _ r) r). exact Hr.
Qed.

(** X20: for a recipe whose ratings list holds at most one entry of user
    [uid], two successive valid calls of [rate] by that user both succeed
    and leave exactly one entry of the user, holding the second value; the
    second call overwrites in place and appends nothing. *)
Theorem rate_twice_upsert now1 now2 id uid v1 v2 st r :
  valid_rating v1 = true -> valid_rating v2 = true ->
  findById (recipes st) id = Some r ->
  (length (List.filter (rated_by uid) (ratings r)) <= 1)%nat ->
  let st1 := (rate now1 id uid v1 st).2 in
  let st2 := (rate now2 id uid v2 st1).2 in
  (rate now1 id uid v1 st).1 = Rated /\
  (rate now2 id uid v2 st1).1 = Rated /\
  (exists x, ratings_of st2 id uid = [x] /\ rt_user x = uid /\ rt_rating x = v2) /\
  (exists r1 r2, findById (recipes st1) id = Some r1 /\
                 findById (recipes st2) id = Some r2 /\
                 length (ratings r2) = length (ratings r1)).
Proof.
  intros Hv1 Hv2 Hr Hone st1 st2.
  pose proof (rate_found_lookup now1 id uid v1 st r Hv1 Hr) as H1.
  fold st1 in H1.
  pose proof (rate_found_lookup now2 id uid v2 st1 _ Hv2 H1) as H2.
  fold st2 in H2.
  destruct (upsert_rating_filter now1 uid v1 (ratings r)) as (x1 & Hx1 & _ & _).
  set (rs1 := upsert_rating now1 uid v1 (ratings r)) in *.
  destruct (upsert_rating_filter now2 uid v2 rs1) as (x2 & Hx2 & Hu2 & Hr2).
  split; [by rewrite (rate_found _ _ _ _ _ _ Hv1 Hr)|].
  split; [unfold st1 in *; by rewrite (rate_found _ _ _ _ _ _ Hv2 H1)|].
  split.
  - exists x2. unfold ratings_of. rewrite H2. simpl. rewrite Hx2, Hx1. simpl.
    split; [|done]. f_equal.
    destruct (List.filter (rated_by uid) (ratings r)) as [|a [|b l]]; simpl in *; [done|done|lia].
  - eexists _, _. split; [exact H1|]. split; [exact H2|]. simpl.
    apply upsert_rating_length_present. by rewrite Hx1.
Qed.

(** On a recipe without ratings, rating 4 and then 2 leaves the one entry 2. *)
Lemma rate_twice_upsert_witness :
  valid_rating 4 = true /\ valid_rating 2 = true /\
  findById (recipes one_user) "r1" = Some (sample "r1" 0 []) /\
  (rate 200 "r1" "u1" 4 one_user).1 = Rated /\
  ratings_of (rate 300 "r1" "u1" 2 (rate 200 "r1" "u1" 4 one_user).2).2 "r1" "u1"
  = [mkRating "u1" 2 200].
Proof.
  split; [reflexivity|]. split; [reflexivity|]. split; [reflexivity|].
  destruct (rate_twice_upsert 200 300 "r1" "u1" 4 2 one_user (sample "r1" 0 []))
    as (H1 & _ & _ & _); [reflexivity | reflexivity | reflexivity | simpl; lia |].
  split; [exact H1 | vm_compute; reflexivity].
Defined.

(** C1: the handler of [rate] is the upsert the claim describes (see
    [rate_found_lookup] and the lemmas on [upsert_rating]), yet the claim
    fails in a state the catalog's operations reach: a recipe created with
    two ratings of [u1] in its body still has two entries of [u1] after
    [u1] rates it twice, only the first one being overwritten. The fault is
    the creation, which stores the ratings of the body. *)
Lemma rate_twice_keeps_duplicate :
  reachable dup_rated_twice /\
  ratings_of dup_state "r1" "u1" = [mkRating "u1" 5 100; mkRating "u1" 4 100] /\
  ratings_of dup_rated_twice "r1" "u1" = [mkRating "u1" 2 100; mkRating "u1" 4 100].
Proof.
  split; [by eexists [], _|]. split; vm_compute; reflexivity.
Qed.

(** * The invariant on ratings *)

Lemma rate_preserves now id uid v st :
  one_rating_per_user st -> one_rating_per_user (rate now id uid v st).2.
Proof.
  intros Hinv. unfold rate.
  destruct (valid_rating v); simpl; [|done].
  destruct (findById (recipes st) id) as [r|] eqn:E; simpl; [|done].
  unfold one_rating_per_user. simpl. apply save_Forall; [done|]. simpl.
  apply upsert_rating_NoDup.
  unfold one_rating_per_user in Hinv. rewrite Forall_forall in Hinv.
  eapply Hinv, findById_In, E.
Qed.

Lemma add_comment_preserves now id uid text st :
  one_rating_per_user st -> one_rating_per_user (add_comment now id uid text st).2.
Proof.
  intros Hinv. unfold add_comment.
  destruct (String.eqb text ""); simpl; [done|].
  destruct (findById (recipes st) id) as [r|] eqn:E; simpl; [|done].
  destruct (comment_text_ok _); simpl; [|done].
  unfold one_rating_per_user. simpl. apply save_Forall; [done|]. simpl.
  unfold one_rating_per_user in Hinv. rewrite Forall_forall in Hinv.
  eapply Hinv, findById_In, E.
Qed.

Lemma favorite_recipes uid id add st : recipes (favorite uid id add st).2 = recipes st.
Proof.
  unfold favorite, favorite_add, favorite_remove.
  destruct add; repeat case_match; done.
Qed.

Lemma favorite_preserves uid id add st :
  one_rating_per_user st -> one_rating_per_user (favorite uid id add st).2.
Proof. unfold one_rating_per_user. by rewrite favorite_recipes. Qed.

Lemma create_preserves now fresh uid b st :
  NoDup (map fst (b_ratings b)) ->
  one_rating_per_user st -> one_rating_per_user (create now fresh uid b st).2.
Proof.
  intros Hb Hinv. unfold create.
  destruct (body_checks b); simpl; [|done].
  destruct (schema_valid _); simpl; [|done].
  destruct (findById (recipes st) fresh); simpl; [done|].
  unfold one_rating_per_user. simpl. apply Forall_app. split; [done|].
  apply Forall_singleton. simpl. by rewrite map_map.
Qed.

Lemma step_preserves o st :
  clean_body o -> one_rating_per_user st -> one_rating_per_user (step o st).2.
Proof.
  destruct o; simpl; intros Hc Hinv.
  - by apply create_preserves.
  - by apply rate_preserves.
  - by apply add_comment_preserves.
  - by apply favorite_preserves.
Qed.

(** Every sequence of operations whose creations carry at most one rating per
    user keeps the invariant. *)
Lemma run_preserves os st :
  Forall clean_body os -> one_rating_per_user st -> one_rating_per_user (run os st).
Proof.
  unfold run. intros Hos. revert st.
  induction Hos as [|o os Ho Hos IH]; intros st Hinv; simpl; [done|].
  apply IH. by apply step_preserves.
Qed.

(** C2: a creation stores the ratings list of its request body as it comes;
    with two entries of one user in the body the reached state breaks the
    invariant. *)
Theorem create_admits_duplicate_ratings :
  reachable dup_state /\
  ratings_of dup_state "r1" "u1" = [mkRating "u1" 5 100; mkRating "u1" 4 100] /\
  ~ one_rating_per_user dup_state.
Proof.
  split; [by exists [], dup_ops|]. split; [by vm_compute|].
  unfold one_rating_per_user. vm_compute. intros H.
  apply Forall_cons in H as [H _]. apply NoDup_cons in H as [H _].
  apply H. by left.
Qed.

(** * Failures leave the state alone *)

(** C6: a valid rating sent to POST /:id/rate with a well-formed id that no
    recipe has is answered with [RecipeNotFound] and the state is returned
    as it was: no recipe, no user and nothing else is changed. *)
Theorem rate_unknown_recipe now raw id uid v st :
  valid_rating v = true ->
  castId raw = Some id ->
  findById (recipes st) id = None ->
  rate_route now raw uid v st = (RecipeNotFound, st).
Proof.
  intros Hv Hc Hr. unfold rate_route, rate. by rewrite Hv, Hc, Hr.
Qed.

Lemma rate_unknown_recipe_witness :
  valid_rating 3 = true /\
  castId "64B7F3A2C9E1D45A6B8C0D99" = Some "64b7f3a2c9e1d45a6b8c0d99"%string /\
  findById (recipes cast_store) "64b7f3a2c9e1d45a6b8c0d99" = None /\
  rate_route 200 "64B7F3A2C9E1D45A6B8C0D99" cook_id 3 cast_store
  = (RecipeNotFound, cast_store).
Proof.
  split; [reflexivity|]. split; [reflexivity|]. split; [reflexivity|].
  apply (rate_unknown_recipe 200 "64B7F3A2C9E1D45A6B8C0D99"
           "64b7f3a2c9e1d45a6b8c0d99"); reflexivity.
Defined.

(** A mutation that does not answer with its success reply changes nothing. *)
Lemma rate_all_or_nothing now id uid v st :
  (rate now id uid v st).1 <> Rated -> (rate now id uid v st).2 = st.
Proof. unfold rate. repeat case_match; simpl; done. Qed.

Lemma findUserById_id us uid u : findUserById us uid = Some u -> u_id u = uid.
Proof.
  unfold findUserById. intros H. apply find_some in H as [_ H].
  unfold user_has_id in H. by apply String.eqb_eq in H.
Qed.

Lemma saveUser_same us uid u : findUserById us uid = Some u -> saveUser u us = us.
Proof.
  unfold findUserById. induction us as [|x us IH]; simpl; [done|].
  destruct (user_has_id uid x) eqn:E.
  - intros [= ->]. unfold user_has_id. by rewrite String.eqb_refl.
  - intros H. pose proof H as H'. apply find_some in H' as [_ H'].
    unfold user_has_id in *. apply String.eqb_eq in H'. rewrite H', E.
    f_equal. auto.
Qed.

Lemma remove_absent id fs :
  includes fs id = false ->
  List.filter (fun x => negb (String.eqb x id)) fs = fs.
Proof.
  unfold includes. induction fs as [|x fs IH]; simpl; [done|].
  intros H. apply orb_false_elim in H as [Hx Hfs].
  rewrite String.eqb_sym, Hx. simpl. f_equal. auto.
Qed.

Lemma remove_gone id fs :
  includes (List.filter (fun x => negb (String.eqb x id)) fs) id = false.
Proof.
  unfold includes. induction fs as [|x fs IH]; simpl; [done|].
  destruct (String.eqb x id) eqn:E; simpl; [done|].
  by rewrite String.eqb_sym, E.
Qed.

Lemma findUserById_saveUser us u0 u :
  findUserById us (u_id u) = Some u0 ->
  findUserById (saveUser u us) (u_id u) = Some u.
Proof.
  unfold findUserById. induction us as [|x us IH]; simpl; [done|].
  destruct (user_has_id (u_id u) x) eqn:E.
  - intros _. simpl. unfold user_has_id. by rewrite String.eqb_refl.
  - intros H. simpl. rewrite E. auto.
Qed.

(** * Favorites *)

(** C5: for a user of the store and the two favourite routes: adding a
    recipe that exists and is already a favourite is rejected with
    [AlreadyFavorited] and changes nothing; removing an id that is not a
    favourite succeeds and changes nothing; adding a well-formed id that no
    recipe has fails with [RecipeNotFound]; removing never consults the
    recipes and always succeeds. *)
Theorem favorite_asymmetry uid raw st u :
  findUserById (users st) uid = Some u ->
  (* add, recipe known and already a favourite: rejected, nothing changes *)
  (forall id r, castId raw = Some id ->
                findById (recipes st) id = Some r ->
                includes (favoriteRecipes u) id = true ->
                favorite_route uid raw true st = (AlreadyFavorited, st)) /\
  (* remove, not a favourite: accepted, nothing changes *)
  (includes (favoriteRecipes u) raw = false ->
   favorite_route uid raw false st = (FavoriteRemoved, st)) /\
  (* add, recipe unknown: not found, nothing changes *)
  (forall id, castId raw = Some id ->
              findById (recipes st) id = None ->
              favorite_route uid raw true st = (RecipeNotFound, st)) /\
  (* remove never looks the recipe up *)
  (exists st', favorite_route uid raw false st = (FavoriteRemoved, st') /\
               recipes st' = recipes st /\
               exists u', findUserById (users st') uid = Some u' /\
                          includes (favoriteRecipes u') raw = false).
Proof.
  intros Hu. pose proof (findUserById_id _ _ _ Hu) as Hid.
  repeat split.
  - intros id r Hc Hr Hin. unfold favorite_route, favorite_add_route, favorite_add.
    rewrite Hc, Hr, Hu. by rewrite (findById_id _ _ _ Hr), Hin.
  - intros Hout. unfold favorite_route, favorite_remove. rewrite Hu.
    rewrite (remove_absent _ _ Hout).
    replace (set_favoriteRecipes (favoriteRecipes u) u) with u by by destruct u.
    rewrite (saveUser_same _ _ _ Hu). by destruct st.
  - intros id Hc Hr. unfold favorite_route, favorite_add_route, favorite_add.
    by rewrite Hc, Hr.
  - unfold favorite_route, favorite_remove. rewrite Hu. eexists. split; [done|].
    split; [done|]. simpl. eexists. split.
    + subst uid.
      apply (findUserById_saveUser (users st) u (set_favoriteRecipes _ u)).
      exact Hu.
    + simpl. apply remove_gone.
Qed.

Lemma favorite_asymmetry_witness :
  findUserById (users cast_store) cook_id = Some (mkUser cook_id [soup_id]) /\
  favorite_route cook_id "64B7F3A2C9E1D45A6B8C0D1E" true cast_store
  = (AlreadyFavorited, cast_store) /\
  favorite_route cook_id "64B7F3A2C9E1D45A6B8C0D1E" false cast_store
  = (FavoriteRemoved, cast_store) /\
  favorite_route cook_id "64b7f3a2c9e1d45a6b8c0d99" true cast_store
  = (RecipeNotFound, cast_store).
Proof.
  split; [reflexivity|].
  destruct (favorite_asymmetry cook_id "64B7F3A2C9E1D45A6B8C0D1E" cast_store
              (mkUser cook_id [soup_id]) eq_refl) as (Hadd & Hrem & _).
  destruct (favorite_asymmetry cook_id "64b7f3a2c9e1d45a6b8c0d99" cast_store
              (mkUser cook_id [soup_id]) eq_refl) as (_ & _ & Hnf & _).
  split; [apply (Hadd soup_id soup); reflexivity|].
  split; [apply Hrem; reflexivity | apply (Hnf "64b7f3a2c9e1d45a6b8c0d99"); reflexivity].
Defined.

(** * Pagination *)

#[global] Instance newest_first_trans : Transitive newest_first.
Proof. unfold newest_first. intros a b c. lia. Qed.

#[global] Instance newest_first_total : Total newest_first.
Proof. unfold newest_first. intros a b. lia. Qed.





Lemma supplied_absent_if_empty p : supplied (absent_if_empty p) = supplied p.
Proof. by destruct p as [[|c t]|]. Qed.

Lemma build_filter_without_empty q : build_filter (without_empty q) = build_filter q.
Proof.
  unfold build_filter, without_empty. simpl.
  by rewrite !supplied_absent_if_empty.
Qed.

Section ListingProps.

Variable text_search : string -> recipe -> bool.





(** * The filter builder *)

Lemma supplied_given p s : supplied p = Some s <-> given p s.
Proof.
  unfold supplied, given, JS.truthy. destruct p as [[|c t]|].
  - split; [done | by intros [[= <-] H]].
  - split; [by intros [= <-] | by intros [H _]].
  - split; [done | by intros [H _]].
Qed.

Lemma supplied_none p : supplied p = None <-> forall s, ~ given p s.
Proof.
  split.
  - intros H s Hs. apply supplied_given in Hs. congruence.
  - intros H. destruct (supplied p) as [s|] eqn:E; [|done].
    apply supplied_given in E. by destruct (H s).
Qed.

(** The branch of a parameter that the builder skipped: nothing is given. *)
Ltac skipped :=
  split; [|done];
  let s := fresh "s" in
  let Hs := fresh "Hs" in
  intros _ s Hs; apply supplied_given in Hs; congruence.

Lemma eq_match_spec p x :
  eq_match (supplied p) x = true <-> forall s, given p s -> x = s.
Proof.
  unfold eq_match. destruct (supplied p) as [v|] eqn:E.
  - apply supplied_given in E. rewrite String.eqb_eq. split.
    + intros -> s [Hs _]. destruct E as [E _]. congruence.
    + intros H. by apply H.
  - skipped.
Qed.

Lemma trim_match_spec p x :
  eq_match (JS.trim <$> supplied p) x = true
  <-> forall s, given p s -> x = JS.trim s.
Proof.
  unfold eq_match. destruct (supplied p) as [v|] eqn:E; simpl.
  - apply supplied_given in E. rewrite String.eqb_eq. split.
    + intros -> s [Hs _]. destruct E as [E _]. congruence.
    + intros H. by apply H.
  - skipped.
Qed.

Lemma text_match_spec p r :
  text_match text_search (supplied p) r = true
  <-> forall s, given p s -> text_search s r = true.
Proof.
  unfold text_match. destruct (supplied p) as [v|] eqn:E.
  - apply supplied_given in E. split.
    + intros H s [Hs _]. destruct E as [E _]. congruence.
    + intros H. by apply H.
  - skipped.
Qed.

Lemma lte_match_spec p x :
  lte_match (JS.parseInt <$> supplied p) x = true
  <-> forall s, given p s -> at_most s x.
Proof.
  unfold lte_match, at_most. destruct (supplied p) as [v|] eqn:E; simpl.
  - apply supplied_given in E. split.
    + intros H s [Hs _]. destruct E as [E _].
      assert (s = v) as -> by congruence.
      destruct (JS.parseInt v) as [|n]; [done|]. destruct x as [y|]; [|done].
      exists n, y. apply Z.leb_le in H. done.
    + intros H. destruct (H v E) as (n & y & -> & -> & Hle).
      by apply Z.leb_le.
  - skipped.
Qed.

Lemma in_match_spec p ings :
  in_match (JS.split_on ","%char <$> supplied p) ings = true
  <-> forall s, given p s -> names_ingredient s ings.
Proof.
  unfold in_match, names_ingredient.
  assert (Hex0 : forall names,
    existsb (fun i => existsb (String.eqb (i_name i)) names) ings = true
    <-> exists i, i ∈ ings /\ i_name i ∈ names).
  { intros names. rewrite existsb_exists. split.
    - intros (i & Hi & Hn). apply existsb_exists in Hn as (n & Hn & Heq).
      apply String.eqb_eq in Heq. subst n.
      exists i. by rewrite !list_elem_of_In.
    - intros (i & Hi & Hn). exists i. rewrite <- list_elem_of_In.
      split; [done|]. apply existsb_exists. exists (i_name i).
      rewrite <- list_elem_of_In, String.eqb_eq. done. }
  pose proof (fun names => Hex0 (map JS.trim names)) as Hex.
  destruct (supplied p) as [v|] eqn:E; simpl.
  - apply supplied_given in E. rewrite Hex. split.
    + intros H s [Hs _]. destruct E as [E _]. by assert (s = v) as -> by congruence.
    + intros H. by apply H.
  - skipped.
Qed.

Lemma matches_satisfies q r :
  matches text_search (build_filter q) r = true <-> satisfies_supplied text_search q r.
Proof.
  unfold matches, build_filter, satisfies_supplied. simpl.
  rewrite !andb_true_iff, trim_match_spec, !eq_match_spec, text_match_spec,
    !lte_match_spec, in_match_spec.
  tauto.
Qed.

(** C7: a recipe matches the built filter exactly when it satisfies the
    constraint of every supplied parameter (for the cuisine and the
    ingredient names, equality with the value as the [trim] setter leaves
    it); no parameter, no constraint; with cuisine Italian and maxPrepTime
    20 the matching recipes are those whose cuisine is Italian and whose
    prepTime is at most 20, so an Italian recipe with prepTime 25 is
    excluded; and a second query, with blanks around its values, a bound on
    the calories and two ingredient names, is spelled out in the same
    way. *)
Theorem filter_is_conjunction :
  (forall q r,
     matches text_search (build_filter q) r = true <-> satisfies_supplied text_search q r) /\
  (forall r, matches text_search (build_filter no_query) r = true) /\
  (forall r, matches text_search (build_filter italian_20) r = true
             <-> cuisine r = "Italian"%string /\ prepTime r <= 20) /\
  (forall r, cuisine r = "Italian"%string -> prepTime r = 25 ->
             matches text_search (build_filter italian_20) r = false) /\
  (forall r, matches text_search (build_filter italian_spaced) r = true
             <-> cuisine r = "Italian"%string /\
                 (exists k, calories r = Some k /\ k <= 400) /\
                 (exists i, i ∈ ingredients r /\
                            (i_name i = "rice"%string
                             \/ i_name i = "spaghetti"%string))).
Proof.
  split; [exact matches_satisfies|]. split; [done|].
  assert (Hit : forall r, matches text_search (build_filter italian_20) r = true
             <-> cuisine r = "Italian"%string /\ prepTime r <= 20).
  { intros r. unfold matches. simpl.
    rewrite !andb_true_r, andb_true_iff, String.eqb_eq, Z.leb_le. done. }
  split; [exact Hit|].
  split; [intros r Hc Hp; apply not_true_iff_false; rewrite Hit; lia|].
  intros r. rewrite matches_satisfies. unfold satisfies_supplied, italian_spaced.
  cbn [q_cuisine q_diet q_difficulty q_search q_maxPrepTime q_maxCookTime
       q_maxCalories q_ingredients].
  split.
  - intros (Hc & _ & _ & _ & _ & _ & Hk & Hi).
    split; [by apply (Hc " Italian "%string)|]. split.
    + destruct (Hk "400"%string) as (n & k & Hn & Hk' & Hle); [done|].
      exists k. split; [done|]. vm_compute in Hn. congruence.
    + destruct (Hi "rice, spaghetti"%string) as (i & Hin & Hname); [done|].
      exists i. split; [done|].
      change (i_name i ∈ ["rice"; "spaghetti"]%string) in Hname.
      apply elem_of_cons in Hname as [Hname|Hname]; [by left|].
      apply list_elem_of_singleton in Hname. by right.
  - intros (Hc & (k & Hk & Hle) & (i & Hin & Hname)).
    split; [intros s [[= <-] _]; exact Hc|].
    repeat (split; [by intros s [[=] _]|]).
    split.
    + intros s [[= <-] _]. by exists 400, k.
    + intros s [[= <-] _]. exists i. split; [done|].
      change (i_name i ∈ ["rice"; "spaghetti"]%string).
      destruct Hname as [->| ->]; [by left | right; by left].
Qed.

Lemma malformed_bound_uncastable q s :
  s <> ""%string -> JS.parseInt s = JS.NaN ->
  Some s ∈ bound_params q ->
  castable (build_filter q) = false.
Proof.
  intros Hs Hnan Hin.
  assert (Hb : castable_bound (JS.parseInt <$> supplied (Some s)) = false).
  { destruct s; [done|]. simpl. by rewrite Hnan. }
  unfold bound_params in Hin. unfold castable, build_filter. simpl.
  repeat (apply elem_of_cons in Hin as [Hin|Hin]);
    [| | | by apply elem_of_nil in Hin];
    rewrite <- Hin, Hb; by rewrite ?andb_false_r.
Qed.

(** X21: a non-empty value of maxPrepTime, maxCookTime or maxCalories that
    does not start with an integer is not read as an absent parameter: the
    builder sets the bound NaN, which no recipe satisfies and which the
    store refuses to cast, so that the listing answers 500. *)
Theorem malformed_bound_matches_nothing q r st s :
  s <> ""%string -> JS.parseInt s = JS.NaN ->
  Some s ∈ bound_params q ->
  matches text_search (build_filter q) r = false /\
  list_recipes text_search q st = ListingError.
Proof.
  intros Hs Hnan Hin. split.
  - apply not_true_iff_false. rewrite matches_satisfies.
    intros (_ & _ & _ & _ & Hp & Hc & Hk & _).
    unfold bound_params in Hin.
    assert (Hno : forall x, ~ at_most s x).
    { intros x (n & v & Hn & _). congruence. }
    repeat (apply elem_of_cons in Hin as [Hin|Hin]);
      [eapply Hno, Hp | eapply Hno, Hc | eapply Hno, Hk | by apply elem_of_nil in Hin];
      done.
  - unfold list_recipes. by rewrite (malformed_bound_uncastable q s Hs Hnan Hin).
Qed.

(** C10: a filter parameter given as the empty string sets no key of the
    filter, for each of the eight parameters; the filter built and the
    listing returned are those of the query without these parameters. *)
Theorem empty_parameter_is_absent pg lm c d df se pt ct cal ing :
  let q := mkQuery pg lm c d df se pt ct cal ing in
  build_filter (mkQuery pg lm (Some "") d df se pt ct cal ing)
  = build_filter (mkQuery pg lm None d df se pt ct cal ing) /\
  build_filter (mkQuery pg lm c (Some "") df se pt ct cal ing)
  = build_filter (mkQuery pg lm c None df se pt ct cal ing) /\
  build_filter (mkQuery pg lm c d (Some "") se pt ct cal ing)
  = build_filter (mkQuery pg lm c d None se pt ct cal ing) /\
  build_filter (mkQuery pg lm c d df (Some "") pt ct cal ing)
  = build_filter (mkQuery pg lm c d df None pt ct cal ing) /\
  build_filter (mkQuery pg lm c d df se (Some "") ct cal ing)
  = build_filter (mkQuery pg lm c d df se None ct cal ing) /\
  build_filter (mkQuery pg lm c d df se pt (Some "") cal ing)
  = build_filter (mkQuery pg lm c d df se pt None cal ing) /\
  build_filter (mkQuery pg lm c d df se pt ct (Some "") ing)
  = build_filter (mkQuery pg lm c d df se pt ct None ing) /\
  build_filter (mkQuery pg lm c d df se pt ct cal (Some ""))
  = build_filter (mkQuery pg lm c d df se pt ct cal None) /\
  build_filter (without_empty q) = build_filter q /\
  (forall st, list_recipes text_search (without_empty q) st
              = list_recipes text_search q st) /\
  (forall r, matches text_search
               (build_filter (mkQuery pg lm (Some "") (Some "") (Some "") (Some "")
                                      (Some "") (Some "") (Some "") (Some ""))) r
             = true).
Proof.
  intros q. repeat split; try reflexivity.
  - apply build_filter_without_empty.
  - intros st. unfold list_recipes. by rewrite build_filter_without_empty.
Qed.

End ListingProps.

(** * Popular *)

#[global] Instance popular_order_trans : Transitive popular_order.
Proof.
  unfold popular_order. intros a b c.
  destruct (top_rating a), (top_rating b), (top_rating c); simpl;
    intros [H1|[H1 H1']] [H2|[H2 H2']]; simplify_eq; try done;
    try (left; lia); try (right; split; [done|lia]).
Qed.

#[global] Instance popular_order_total : Total popular_order.
Proof.
  unfold popular_order. intros a b.
  destruct (top_rating a) as [x|], (top_rating b) as [y|]; simpl.
  - destruct (Z.lt_trichotomy x y) as [H|[H|H]].
    + right. by left.
    + subst y. destruct (Z.le_ge_cases (createdAt a) (createdAt b)).
      * right. by right.
      * left. by right.
    + left. by left.
  - left. by left.
  - right. by left.
  - destruct (Z.le_ge_cases (createdAt a) (createdAt b)).
    + right. by right.
    + left. by right.
Qed.

(** C8 (amended): the popular listing is the first 12 recipes of the whole
    collection ordered by the highest single rating of each recipe,
    descending, recipes without ratings last, ties by creation time
    descending; it takes no page. *)
Theorem popular_by_top_rating st :
  length (popular st) = Nat.min 12 (length (recipes st)) /\
  exists rest,
    popular st ++ rest ≡ₚ recipes st /\
    StronglySorted popular_order (popular st ++ rest).
Proof.
  unfold popular. split.
  - by rewrite length_take, merge_sort_Permutation.
  - exists (drop 12 (merge_sort popular_order (recipes st))).
    rewrite take_drop. split.
    + apply merge_sort_Permutation.
    + apply StronglySorted_merge_sort; apply _.
Qed.

(** * The properties on sample data *)


(** The word abc as maxPrepTime: no recipe matches and the listing fails. *)
Lemma malformed_bound_matches_nothing_witness :
  "abc"%string <> ""%string /\ JS.parseInt "abc" = JS.NaN /\
  Some "abc"%string ∈ bound_params prep_abc /\
  matches any_text (build_filter prep_abc) (sample "r1" 0 []) = false /\
  list_recipes any_text prep_abc one_user = ListingError.
Proof.
  assert (Hin : Some "abc"%string ∈ bound_params prep_abc) by constructor.
  split; [discriminate|]. split; [reflexivity|]. split; [exact Hin|].
  apply (malformed_bound_matches_nothing any_text prep_abc _ _ "abc");
    [discriminate | reflexivity | exact Hin].
Defined.

(** C9: a malformed bound is not dropped the way a malformed [page] or
    [limit] is (these fall back on 1 and 12 through [||]): with
    maxPrepTime=abc the filter carries the bound NaN, which the recipe of
    the store does not satisfy, and the listing fails with 500; without the
    parameter the filter has no bound and the listing holds that recipe. *)
Lemma malformed_bound_is_not_absent :
  f_prepTime (build_filter prep_abc) = Some JS.NaN /\
  f_prepTime (build_filter no_query) = None /\
  matches any_text (build_filter prep_abc) (sample "r1" 0 []) = false /\
  matches any_text (build_filter no_query) (sample "r1" 0 []) = true /\
  list_recipes any_text prep_abc one_user = ListingError /\
  list_recipes any_text no_query one_user
  = Listing [sample "r1" 0 []] (mkPagination 1 1 1 false false).
Proof. repeat split; vm_compute; reflexivity. Qed.

(** C4: the page size is [parseInt(limit) || 12], which replaces NaN and 0
    and keeps a negative number. With limit=-5 and 25 recipes, page 1 is
    answered with 5 recipes, totalPages = -5 and hasNext = false, and page 2
    with the error 500, where the slice [[(p-1)*s, p*s)] of the claim is
    empty and no error is due. *)
Theorem negative_limit_breaks_paging :
  limit_of (page_query "1" "-5") = -5 /\
  (exists items,
     list_recipes any_text (page_query "1" "-5") store25
     = Listing items (mkPagination 1 (-5) 25 false false) /\
     length items = 5%nat) /\
  list_recipes any_text (page_query "2" "-5") store25 = ListingError.
Proof.
  split; [reflexivity|]. split; [|vm_compute; reflexivity].
  eexists. split; vm_compute; reflexivity.
Qed.

(** C8 (as stated): the recipe rated 5 and 1 (average 3.0) is listed before
    the newer recipe rated 4 and 4 (average 4.0). *)
Lemma popular_not_by_average :
  popular two_recipes = [split_opinions; steady_fours] /\
  averageRating split_opinions = JStr "3.0" /\
  averageRating steady_fours = JStr "4.0" /\
  top_rating split_opinions = Some 5 /\ top_rating steady_fours = Some 4 /\
  createdAt split_opinions < createdAt steady_fours /\
  ~ average_order split_opinions steady_fours.
Proof.
  repeat split; try (vm_compute; reflexivity).
  unfold average_order. intros [H|[H _]]; vm_compute in H; discriminate.
Qed.

(** * Beyond the claims: the other routes and what the operations keep *)


(** * More on the store *)

Lemma findById_save_ne rs d id :
  _id d <> id -> findById (save d rs) id = findById rs id.
Proof.
  intros Hne. unfold findById. induction rs as [|x rs IH]; simpl; [done|].
  destruct (has_id (_id d) x) eqn:E; simpl.
  - unfold has_id in *. apply String.eqb_eq in E.
    destruct (String.eqb_spec (_id d) id) as [|_]; [done|].
    destruct (String.eqb_spec (_id x) id) as [Hx|_]; [congruence|done].
  - destruct (has_id id x); [done|apply IH].
Qed.

Lemma save_same rs id r : findById rs id = Some r -> save r rs = rs.
Proof.
  unfold findById. induction rs as [|x rs IH]; simpl; [done|].
  destruct (has_id id x) eqn:E.
  - intros [= ->]. unfold has_id. by rewrite String.eqb_refl.
  - intros H. pose proof (find_some _ _ H) as [_ H'].
    unfold has_id in *. apply String.eqb_eq in H'. rewrite H', E.
    f_equal. auto.
Qed.

Lemma save_save rs a b : _id a = _id b -> save a (save b rs) = save a rs.
Proof.
  intros Hid. induction rs as [|x rs IH]; simpl; [done|].
  unfold has_id in *. rewrite <- Hid.
  destruct (String.eqb (_id x) (_id a)) eqn:E; simpl.
  - unfold has_id. by rewrite <- Hid, String.eqb_refl.
  - unfold has_id at 1. by rewrite E, IH.
Qed.

Lemma findById_app_l rs extra id r :
  findById rs id = Some r -> findById (rs ++ extra) id = Some r.
Proof.
  unfold findById. induction rs as [|x rs IH]; simpl; [done|].
  destruct (has_id id x); [done|apply IH].
Qed.


Lemma overwrite_first_idem uid v rs :
  overwrite_first uid v (overwrite_first uid v rs) = overwrite_first uid v rs.
Proof.
  induction rs as [|x rs IH]; simpl; [done|].
  destruct (rated_by uid x) eqn:E; simpl.
  - unfold rated_by in *. simpl. by rewrite E.
  - by rewrite E, IH.
Qed.

Lemma find_overwrite_first uid v rs x :
  List.find (rated_by uid) rs = Some x ->
  List.find (rated_by uid) (overwrite_first uid v rs)
  = Some (mkRating (rt_user x) v (rt_createdAt x)).
Proof.
  induction rs as [|y rs IH]; simpl; [done|].
  destruct (rated_by uid y) eqn:E; simpl.
  - intros [= ->]. unfold rated_by in *. simpl. by rewrite E.
  - intros H. rewrite E. auto.
Qed.

Lemma find_app_new uid v now rs :
  List.find (rated_by uid) rs = None ->
  List.find (rated_by uid) (rs ++ [mkRating uid v now]) = Some (mkRating uid v now).
Proof.
  induction rs as [|y rs IH]; simpl.
  - intros _. unfold rated_by. simpl. by rewrite String.eqb_refl.
  - destruct (rated_by uid y); [done|apply IH].
Qed.

Lemma overwrite_first_app_new uid v now rs :
  List.find (rated_by uid) rs = None ->
  overwrite_first uid v (rs ++ [mkRating uid v now]) = rs ++ [mkRating uid v now].
Proof.
  induction rs as [|y rs IH]; simpl.
  - intros _. unfold rated_by. simpl. by rewrite String.eqb_refl.
  - destruct (rated_by uid y); [done|]. intros H. by rewrite IH.
Qed.

(** Rating again with the same value changes nothing. *)
Lemma upsert_rating_idem now1 now2 uid v rs :
  upsert_rating now2 uid v (upsert_rating now1 uid v rs) = upsert_rating now1 uid v rs.
Proof.
  unfold upsert_rating. destruct (List.find (rated_by uid) rs) as [x|] eqn:E.
  - rewrite (find_overwrite_first _ v _ _ E). apply overwrite_first_idem.
  - rewrite (find_app_new _ v now1 _ E). by apply overwrite_first_app_new.
Qed.

Lemma set_ratings_set_ratings a b r : set_ratings a (set_ratings b r) = set_ratings a r.
Proof. reflexivity. Qed.

(** X1: rating a recipe again with the value it already has from this user
    succeeds and leaves the whole state as the first call left it. *)
Theorem rate_idempotent now1 now2 id uid v st r :
  valid_rating v = true ->
  findById (recipes st) id = Some r ->
  rate now2 id uid v (rate now1 id uid v st).2 = (Rated, (rate now1 id uid v st).2).
Proof.
  intros Hv Hr.
  pose proof (rate_found_lookup now1 id uid v st r Hv Hr) as H1.
  rewrite (rate_found now2 id uid v _ _ Hv H1).
  rewrite (rate_found now1 id uid v st r Hv Hr). simpl.
  rewrite set_ratings_set_ratings, upsert_rating_idem.
  f_equal. f_equal. by apply save_save.
Qed.

Lemma overwrite_first_others uid v rs :
  List.filter (fun x => negb (rated_by uid x)) (overwrite_first uid v rs)
  = List.filter (fun x => negb (rated_by uid x)) rs.
Proof.
  induction rs as [|x rs IH]; simpl; [done|].
  destruct (rated_by uid x) eqn:E; simpl.
  - unfold rated_by in *. simpl. by rewrite E.
  - by rewrite E, IH.
Qed.

Lemma upsert_rating_others now uid v rs :
  List.filter (fun x => negb (rated_by uid x)) (upsert_rating now uid v rs)
  = List.filter (fun x => negb (rated_by uid x)) rs.
Proof.
  unfold upsert_rating. destruct (List.find (rated_by uid) rs).
  - apply overwrite_first_others.
  - rewrite List.filter_app. simpl. unfold rated_by at 2. simpl.
    rewrite String.eqb_refl. simpl. apply app_nil_r.
Qed.

Lemma upsert_rating_length now uid v rs :
  (length rs <= length (upsert_rating now uid v rs) <= S (length rs))%nat.
Proof.
  unfold upsert_rating. destruct (List.find (rated_by uid) rs).
  - rewrite overwrite_first_length. lia.
  - rewrite length_app. simpl. lia.
Qed.

Lemma save_length d rs : length (save d rs) = length rs.
Proof.
  induction rs as [|x rs IH]; simpl; [done|].
  destruct (has_id (_id d) x); simpl; [done | by rewrite IH].
Qed.

(** X2: a successful [rate] changes one recipe only, and in it only the
    ratings: the users, the number of recipes and every other recipe are as
    before; the rated recipe keeps its other fields and its comments, the
    entries of the other users are untouched, and the ratings list grows by
    at most one entry. *)
Theorem rate_frame now id uid v st r :
  valid_rating v = true ->
  findById (recipes st) id = Some r ->
  users (rate now id uid v st).2 = users st /\
  length (recipes (rate now id uid v st).2) = length (recipes st) /\
  (forall id', id' <> id ->
     findById (recipes (rate now id uid v st).2) id' = findById (recipes st) id') /\
  exists r',
    findById (recipes (rate now id uid v st).2) id = Some r' /\
    same_core r r' /\
    comments r' = comments r /\
    List.filter (fun x => negb (rated_by uid x)) (ratings r')
    = List.filter (fun x => negb (rated_by uid x)) (ratings r) /\
    (length (ratings r) <= length (ratings r') <= S (length (ratings r)))%nat.
Proof.
  intros Hv Hr.
  pose proof (rate_found_lookup now id uid v st r Hv Hr) as Hl.
  rewrite (rate_found now id uid v st r Hv Hr) in *. simpl in *.
  split; [done|]. split; [apply save_length|]. split.
  - intros id' Hne. apply findById_save_ne. simpl.
    rewrite (findById_id _ _ _ Hr). congruence.
  - eexists. split; [exact Hl|]. simpl.
    split; [by destruct r|]. split; [done|].
    split; [apply upsert_rating_others | apply upsert_rating_length].
Qed.

(** X3: an operation that does not answer with its success reply (a 400,
    404 or 500) leaves the state exactly as it was. *)
Theorem failure_changes_nothing o st :
  is_success (step o st).1 = false -> (step o st).2 = st.
Proof.
  destruct o as [now fresh uid b|now id uid v|now id uid text|uid id add]; simpl.
  - unfold create. repeat case_match; simpl; done.
  - unfold rate. repeat case_match; simpl; done.
  - unfold add_comment. repeat case_match; simpl; done.
  - unfold favorite, favorite_add, favorite_remove. repeat case_match; simpl; done.
Qed.

(** * The history of a recipe *)

Lemma same_core_refl r : same_core r r.
Proof. by destruct r. Qed.

Lemma same_core_trans a b c : same_core a b -> same_core b c -> same_core a c.
Proof.
  unfold same_core. destruct a, b, c. simpl. intros [= -> -> -> -> -> -> -> -> -> -> -> -> -> -> -> -> ->].
  intros [= -> -> -> -> -> -> -> -> -> -> -> -> -> -> -> -> ->]. done.
Qed.

#[global] Instance evolves_preorder : PreOrder evolves.
Proof.
  split.
  - intros r. split; [apply same_core_refl|]. split; reflexivity.
  - intros a b c (H1 & H2 & H3) (H1' & H2' & H3').
    split; [by eapply same_core_trans|]. split; by etrans.
Qed.

Lemma overwrite_first_stamps uid v rs :
  map stamp (overwrite_first uid v rs) = map stamp rs.
Proof.
  induction rs as [|x rs IH]; simpl; [done|].
  destruct (rated_by uid x); simpl; [done | by rewrite IH].
Qed.

Lemma upsert_rating_stamps now uid v rs :
  map stamp rs `prefix_of` map stamp (upsert_rating now uid v rs).
Proof.
  unfold upsert_rating. destruct (List.find (rated_by uid) rs).
  - by rewrite overwrite_first_stamps.
  - rewrite map_app. by apply prefix_app_r.
Qed.

Lemma step_evolves o st id r :
  findById (recipes st) id = Some r ->
  exists r', findById (recipes (step o st).2) id = Some r' /\ evolves r r'.
Proof.
  intros Hr.
  assert (Hsame : exists r', findById (recipes st) id = Some r' /\ evolves r r').
  { exists r. split; [done|reflexivity]. }
  destruct o as [now fresh uid b|now id0 uid v|now id0 uid text|uid id0 add]; simpl.
  - unfold create. repeat case_match; simpl; try done.
    exists r. split; [by apply findById_app_l|reflexivity].
  - unfold rate. destruct (valid_rating v); simpl; [|done].
    destruct (findById (recipes st) id0) as [r0|] eqn:E0; simpl; [|done].
    pose proof (findById_id _ _ _ E0) as Hid0.
    destruct (decide (id0 = id)) as [->|Hne].
    + assert (r0 = r) as -> by congruence.
      eexists. split.
      * rewrite <- Hid0. apply (findById_save (recipes st) (set_ratings _ r) r).
        simpl. by rewrite Hid0.
      * split; [by destruct r|]. split; [done|]. simpl. apply upsert_rating_stamps.
    + exists r. split; [|reflexivity].
      rewrite findById_save_ne; [done|]. simpl. congruence.
  - unfold add_comment. destruct (String.eqb text ""); simpl; [done|].
    destruct (findById (recipes st) id0) as [r0|] eqn:E0; simpl; [|done].
    destruct (comment_text_ok _); simpl; [|done].
    pose proof (findById_id _ _ _ E0) as Hid0.
    destruct (decide (id0 = id)) as [->|Hne].
    + assert (r0 = r) as -> by congruence.
      eexists. split.
      * rewrite <- Hid0. apply (findById_save (recipes st) (set_comments _ r) r).
        simpl. by rewrite Hid0.
      * split; [by destruct r|]. split; [by apply prefix_app_r|done].
    + exists r. split; [|reflexivity].
      rewrite findById_save_ne; [done|]. simpl. congruence.
  - by rewrite favorite_recipes.
Qed.

(** X4: no sequence of operations removes or replaces a stored recipe: it
    is still found under its id, with every field other than ratings and
    comments unchanged; its earlier comments are a prefix of the later ones,
    and its earlier rating entries are still there, with their user and
    their time. *)
Theorem recipe_history os st id r :
  findById (recipes st) id = Some r ->
  exists r', findById (recipes (run os st)) id = Some r' /\ evolves r r'.
Proof.
  unfold run. revert st r. induction os as [|o os IH]; intros st r Hr; simpl.
  - exists r. split; [done|reflexivity].
  - destruct (step_evolves o st id r Hr) as (r1 & H1 & He1).
    destruct (IH _ r1 H1) as (r2 & H2 & He2).
    exists r2. split; [done|]. by etrans.
Qed.



(** * Comments *)

(** X5: a comment whose trimmed text is non-empty and at most 500
    characters long, on a recipe that exists, is appended at the end of that
    recipe's comments with the acting user and the time of the call; the
    reply is that last stored comment; ratings, other fields, other recipes
    and users are unchanged. *)
Theorem add_comment_appends now id uid text st r :
  text <> ""%string ->
  findById (recipes st) id = Some r ->
  comment_text_ok (JS.trim text) = true ->
  let c := mkComment uid (JS.trim text) now in
  (add_comment now id uid text st).1 = Commented c /\
  users (add_comment now id uid text st).2 = users st /\
  (forall id', id' <> id ->
     findById (recipes (add_comment now id uid text st).2) id'
     = findById (recipes st) id') /\
  exists r',
    findById (recipes (add_comment now id uid text st).2) id = Some r' /\
    comments r' = comments r ++ [c] /\
    last (comments r') = Some c /\
    ratings r' = ratings r /\
    same_core r r'.
Proof.
  intros Ht Hr Hok c. unfold add_comment.
  destruct (String.eqb_spec text "") as [|_]; [done|].
  rewrite Hr. cbn [cm_text]. rewrite Hok. simpl.
  pose proof (findById_id _ _ _ Hr) as Hid.
  split; [done|]. split; [done|]. split.
  - intros id' Hne. apply findById_save_ne. simpl. congruence.
  - eexists. split.
    + rewrite <- Hid. apply (findById_save (recipes st) (set_comments _ r) r).
      simpl. by rewrite Hid.
    + simpl. split; [done|]. split; [apply last_snoc|]. split; [done|].
      by destruct r.
Qed.

Lemma skip_spaces_blank s :
  Forall (fun ch => JS.is_space ch = true) (String.list_ascii_of_string s) ->
  JS.skip_spaces s = ""%string.
Proof.
  induction s as [|ch s IH]; simpl; [done|].
  intros H. apply Forall_cons in H as [Hc Hs]. rewrite Hc. auto.
Qed.

Lemma trim_blank s :
  Forall (fun ch => JS.is_space ch = true) (String.list_ascii_of_string s) ->
  JS.trim s = ""%string.
Proof. intros H. unfold JS.trim. by rewrite (skip_spaces_blank s H). Qed.

(** X6: a comment text that is not empty but consists of blanks only passes
    the route's validator and is then refused by the schema when the recipe
    is saved: the answer is 500 and nothing is stored. *)
Theorem blank_comment_fails now id uid text st r :
  text <> ""%string ->
  Forall (fun ch => JS.is_space ch = true) (String.list_ascii_of_string text) ->
  findById (recipes st) id = Some r ->
  add_comment now id uid text st = (ServerError, st).
Proof.
  intros Ht Hb Hr. unfold add_comment.
  destruct (String.eqb_spec text "") as [|_]; [done|].
  rewrite Hr. cbn [cm_text]. by rewrite (trim_blank text Hb).
Qed.

(** * Favorites *)

Lemma includes_elem fs id : includes fs id = true <-> id ∈ fs.
Proof.
  unfold includes. rewrite existsb_exists. split.
  - intros (x & Hx & He). apply String.eqb_eq in He. subst.
    by apply list_elem_of_In.
  - intros H. exists id. rewrite String.eqb_refl. split; [|done].
    by apply list_elem_of_In.
Qed.

Lemma saveUser_Forall (P : user -> Prop) d us :
  Forall P us -> P d -> Forall P (saveUser d us).
Proof.
  intros Hus Hd. induction Hus as [|x us Hx Hus IH]; simpl; [constructor|].
  destruct (user_has_id (u_id d) x); by constructor.
Qed.

Lemma findUserById_In us uid u : findUserById us uid = Some u -> u ∈ us.
Proof.
  unfold findUserById. intros H. apply find_some in H as [H _].
  by apply list_elem_of_In.
Qed.

Lemma NoDup_list_filter {A} (f : A -> bool) (l : list A) :
  NoDup l -> NoDup (List.filter f l).
Proof.
  induction 1 as [|x l Hx Hl IH]; simpl; [constructor|].
  destruct (f x); [|done]. constructor; [|done].
  intros Hin. apply Hx. apply list_elem_of_In in Hin.
  apply List.filter_In in Hin as [Hin _]. by apply list_elem_of_In.
Qed.

Lemma favorite_keeps_distinct uid id add st :
  distinct_favorites st -> distinct_favorites (favorite uid id add st).2.
Proof.
  unfold distinct_favorites. intros Hinv.
  unfold favorite, favorite_add, favorite_remove. destruct add.
  - destruct (findById (recipes st) id) as [r|]; simpl; [|done].
    destruct (findUserById (users st) uid) as [u|] eqn:Eu; simpl; [|done].
    destruct (includes (favoriteRecipes u) (_id r)) eqn:Ei; simpl; [done|].
    apply saveUser_Forall; [done|]. simpl.
    apply NoDup_app. split.
    + rewrite Forall_forall in Hinv. eapply Hinv, findUserById_In, Eu.
    + split; [|apply NoDup_singleton].
      intros x Hx Hin. apply list_elem_of_singleton in Hin as ->.
      apply includes_elem in Hx. congruence.
  - destruct (findUserById (users st) uid) as [u|] eqn:Eu; simpl; [|done].
    apply saveUser_Forall; [done|]. simpl.
    apply NoDup_list_filter.
    rewrite Forall_forall in Hinv. eapply Hinv, findUserById_In, Eu.
Qed.

Lemma step_users o st :
  match o with
  | OpFavorite _ _ _ => True
  | _ => users (step o st).2 = users st
  end.
Proof.
  destruct o; simpl; [| | |done].
  - unfold create. by repeat case_match.
  - unfold rate. by repeat case_match.
  - unfold add_comment. by repeat case_match.
Qed.

Lemma step_keeps_distinct o st :
  distinct_favorites st -> distinct_favorites (step o st).2.
Proof.
  intros Hinv. pose proof (step_users o st) as Hu.
  destruct o; try (unfold distinct_favorites; by rewrite Hu).
  by apply favorite_keeps_distinct.
Qed.

(** X7: if no user has a recipe twice among the favourites, no sequence of
    operations makes it so. *)
Theorem favorites_stay_distinct os st :
  distinct_favorites st -> distinct_favorites (run os st).
Proof.
  unfold run. revert st. induction os as [|o os IH]; intros st Hinv; simpl; [done|].
  apply IH. by apply step_keeps_distinct.
Qed.

Lemma saveUser_saveUser us a b :
  u_id a = u_id b -> saveUser a (saveUser b us) = saveUser a us.
Proof.
  intros Hid. induction us as [|x us IH]; simpl; [done|].
  unfold user_has_id in *. rewrite <- Hid.
  destruct (String.eqb (u_id x) (u_id a)) eqn:E; simpl.
  - unfold user_has_id. by rewrite <- Hid, String.eqb_refl.
  - unfold user_has_id at 1. by rewrite E, IH.
Qed.

Lemma filter_added (fs : list objectId) (id : objectId) :
  includes fs id = false ->
  List.filter (fun x => negb (String.eqb x id)) (fs ++ [id]) = fs.
Proof.
  intros Hin. rewrite List.filter_app. simpl. rewrite String.eqb_refl. simpl.
  rewrite app_nil_r. by apply remove_absent.
Qed.

Lemma restore_favorites (fs : list objectId) (u : user) :
  set_favoriteRecipes (favoriteRecipes u) (set_favoriteRecipes fs u) = u.
Proof. by destruct u. Qed.

(** X8: for a user and a recipe of the store, with the recipe not yet a
    favourite: adding it appends its id to the user's favourites, adding it
    again is rejected and changes nothing, and removing it then gives back
    the state before the first call. *)
Theorem favorite_add_then_remove id uid st r u :
  findById (recipes st) id = Some r ->
  findUserById (users st) uid = Some u ->
  includes (favoriteRecipes u) id = false ->
  favorite uid id true st
  = (FavoriteAdded,
     mkState (recipes st)
       (saveUser (set_favoriteRecipes (favoriteRecipes u ++ [id]) u) (users st))) /\
  favorite uid id true (favorite uid id true st).2
  = (AlreadyFavorited, (favorite uid id true st).2) /\
  favorite uid id false (favorite uid id true st).2 = (FavoriteRemoved, st).
Proof.
  intros Hr Hu Hin.
  pose proof (findById_id _ _ _ Hr) as Hrid.
  pose proof (findUserById_id _ _ _ Hu) as Huid.
  assert (Hadd : favorite uid id true st
    = (FavoriteAdded,
       mkState (recipes st)
         (saveUser (set_favoriteRecipes (favoriteRecipes u ++ [id]) u) (users st)))).
  { unfold favorite, favorite_add. by rewrite Hr, Hu, Hrid, Hin. }
  assert (Hu' : findUserById
            (saveUser (set_favoriteRecipes (favoriteRecipes u ++ [id]) u) (users st)) uid
          = Some (set_favoriteRecipes (favoriteRecipes u ++ [id]) u)).
  { subst uid.
    apply (findUserById_saveUser (users st) u (set_favoriteRecipes _ u)). exact Hu. }
  split; [exact Hadd|]. rewrite Hadd. simpl. split.
  - unfold favorite, favorite_add. simpl. rewrite Hr, Hu', Hrid. simpl.
    assert (Hi : includes (favoriteRecipes u ++ [id]) id = true).
    { apply includes_elem. apply elem_of_app. right. by left. }
    by rewrite Hi.
  - unfold favorite, favorite_remove. simpl. rewrite Hu'. simpl.
    rewrite (filter_added _ _ Hin), saveUser_saveUser by done.
    rewrite restore_favorites, (saveUser_same _ _ _ Hu). by destruct st.
Qed.

Lemma saveUser_ids d us : map u_id (saveUser d us) = map u_id us.
Proof.
  induction us as [|x us IH]; simpl; [done|].
  destruct (user_has_id (u_id d) x) eqn:E; simpl.
  - unfold user_has_id in E. apply String.eqb_eq in E. by rewrite E.
  - by rewrite IH.
Qed.

Lemma findUserById_saveUser_ne us d uid :
  u_id d <> uid -> findUserById (saveUser d us) uid = findUserById us uid.
Proof.
  intros Hne. unfold findUserById. induction us as [|x us IH]; simpl; [done|].
  destruct (user_has_id (u_id d) x) eqn:E; simpl.
  - unfold user_has_id in *. apply String.eqb_eq in E.
    destruct (String.eqb_spec (u_id d) uid) as [|_]; [done|].
    destruct (String.eqb_spec (u_id x) uid) as [Hx|_]; [congruence|done].
  - destruct (user_has_id uid x); [done|apply IH].
Qed.

(** X9: no operation adds or removes a user. Creating, rating and
    commenting leave the users as they are; a favourite operation leaves the
    recipes and every other user as they are. *)
Theorem users_are_stable o st :
  map u_id (users (step o st).2) = map u_id (users st) /\
  match o with
  | OpFavorite uid _ _ =>
      recipes (step o st).2 = recipes st /\
      forall uid', uid' <> uid ->
        findUserById (users (step o st).2) uid' = findUserById (users st) uid'
  | _ => users (step o st).2 = users st
  end.
Proof.
  pose proof (step_users o st) as Hu.
  destruct o as [now fresh uid b|now id uid v|now id uid text|uid id add];
    try (rewrite Hu; done).
  simpl. split; [|split].
  - unfold favorite, favorite_add, favorite_remove.
    repeat case_match; simpl; by rewrite ?saveUser_ids.
  - apply favorite_recipes.
  - intros uid' Hne. unfold favorite, favorite_add, favorite_remove.
    repeat case_match; simpl; try done;
      apply findUserById_saveUser_ne; simpl;
      match goal with H : findUserById _ _ = Some _ |- _ =>
        rewrite (findUserById_id _ _ _ H) end; congruence.
Qed.



(** * Creation and reading *)



(** * What the schema guarantees in every reachable state *)

Lemma forallb_overwrite_first uid v rs :
  valid_rating v = true ->
  forallb (fun x => valid_rating (rt_rating x)) rs = true ->
  forallb (fun x => valid_rating (rt_rating x)) (overwrite_first uid v rs) = true.
Proof.
  intros Hv. induction rs as [|x rs IH]; simpl; [done|].
  rewrite andb_true_iff. intros [Hx Hrs].
  destruct (rated_by uid x); simpl; rewrite andb_true_iff; auto.
Qed.

Lemma forallb_upsert_rating now uid v rs :
  valid_rating v = true ->
  forallb (fun x => valid_rating (rt_rating x)) rs = true ->
  forallb (fun x => valid_rating (rt_rating x)) (upsert_rating now uid v rs) = true.
Proof.
  intros Hv Hrs. unfold upsert_rating. destruct (List.find (rated_by uid) rs).
  - by apply forallb_overwrite_first.
  - rewrite forallb_app, Hrs. simpl. by rewrite Hv.
Qed.

Lemma schema_valid_ratings r :
  schema_valid r = true ->
  forallb (fun x => valid_rating (rt_rating x)) (ratings r) = true.
Proof. unfold schema_valid. rewrite !andb_true_iff. tauto. Qed.

Lemma schema_valid_set_ratings rs r :
  schema_valid r = true ->
  forallb (fun x => valid_rating (rt_rating x)) rs = true ->
  schema_valid (set_ratings rs r) = true.
Proof. unfold schema_valid. simpl. rewrite !andb_true_iff. tauto. Qed.

Lemma schema_valid_set_comments c r :
  schema_valid r = true ->
  comment_text_ok (cm_text c) = true ->
  schema_valid (set_comments (comments r ++ [c]) r) = true.
Proof.
  unfold schema_valid. simpl. rewrite forallb_app. simpl.
  rewrite !andb_true_iff. tauto.
Qed.

Lemma step_keeps_valid o st : all_valid st -> all_valid (step o st).2.
Proof.
  unfold all_valid. intros Hinv.
  assert (Hget : forall id r, findById (recipes st) id = Some r -> schema_valid r = true).
  { intros id r Hr. rewrite Forall_forall in Hinv. eapply Hinv, findById_In, Hr. }
  destruct o as [now fresh uid b|now id uid v|now id uid text|uid id add]; simpl.
  - unfold create. destruct (body_checks b); simpl; [|done].
    destruct (schema_valid (new_recipe now fresh uid b)) eqn:E; simpl; [|done].
    destruct (findById (recipes st) fresh); simpl; [done|].
    apply Forall_app. split; [done|]. by apply Forall_singleton.
  - unfold rate. destruct (valid_rating v) eqn:Ev; simpl; [|done].
    destruct (findById (recipes st) id) as [r|] eqn:E; simpl; [|done].
    apply save_Forall; [done|].
    apply schema_valid_set_ratings; [by eapply Hget|].
    apply forallb_upsert_rating; [done|].
    apply schema_valid_ratings. by eapply Hget.
  - unfold add_comment. destruct (String.eqb text ""); simpl; [done|].
    destruct (findById (recipes st) id) as [r|] eqn:E; simpl; [|done].
    destruct (comment_text_ok (JS.trim text)) eqn:Ec; simpl; [|done].
    apply save_Forall; [done|].
    apply schema_valid_set_comments; [by eapply Hget|done].
  - by rewrite favorite_recipes.
Qed.

Lemma run_keeps_valid os st : all_valid st -> all_valid (run os st).
Proof.
  unfold run. revert st. induction os as [|o os IH]; intros st Hinv; simpl; [done|].
  apply IH. by apply step_keeps_valid.
Qed.

Lemma valid_rating_in_range x : valid_rating (rt_rating x) = true <-> in_range x.
Proof.
  unfold valid_rating, in_range. rewrite andb_true_iff, !Z.leb_le. done.
Qed.

(** X11: every recipe of a state reached from a store without recipes
    passes the schema: its ratings lie between 1 and 5, its comments are not
    empty and at most 500 characters long, its times are not negative (so
    [totalTime] is at least each of them) and it serves at least one. *)
Theorem reachable_recipes_are_valid st r :
  reachable st -> r ∈ recipes st ->
  schema_valid r = true /\
  Forall in_range (ratings r) /\
  Forall (fun c => cm_text c <> ""%string /\ (String.length (cm_text c) <= 500)%nat)
         (comments r) /\
  0 <= prepTime r <= totalTime r /\ 0 <= cookTime r <= totalTime r /\
  1 <= servings r.
Proof.
  intros (us & os & ->) Hin.
  assert (Hall : all_valid (run os (mkState [] us))).
  { apply run_keeps_valid. constructor. }
  unfold all_valid in Hall. rewrite Forall_forall in Hall.
  specialize (Hall r Hin). split; [done|].
  unfold schema_valid, totalTime in *. rewrite !andb_true_iff in Hall.
  destruct Hall as ((((((((((((((_ & _) & _) & _) & _) & _) & Hp) & Hc) & Hs) & _) & _) & _) & _) & Hr) & Hcm).
  apply Z.leb_le in Hp, Hc, Hs.
  split; [|split; [|lia]].
  - apply Forall_forall. intros x Hx. apply valid_rating_in_range.
    rewrite forallb_forall in Hr. apply Hr. by apply list_elem_of_In.
  - apply Forall_forall. intros c Hc'.
    rewrite forallb_forall in Hcm. apply list_elem_of_In in Hc'.
    specialize (Hcm c Hc'). unfold comment_text_ok in Hcm.
    apply andb_true_iff in Hcm as [H1 H2].
    apply negb_true_iff, String.eqb_neq in H1. apply Nat.leb_le in H2. done.
Qed.



(** * The average of valid ratings *)

(** X12: for a non-empty list of ratings between 1 and 5, [averageRating]
    is the rendering of a number of tenths between 10 and 50, that is a
    value from 1.0 to 5.0. *)
Theorem averageRating_between_1_and_5 r :
  Forall in_range (ratings r) ->
  ratings r <> [] ->
  Z.of_nat (length (ratings r)) < 2 ^ 46 ->
  exists n, averageRating r = JStr (JS.render_tenths n) /\ 10 <= n <= 50.
Proof.
  intros Hall Hne Hlen. unfold averageRating.
  pose proof (rating_sum_bounds _ Hall) as Hsum.
  assert (Hpos : 0 < Z.of_nat (length (ratings r))).
  { destruct (ratings r); [done | simpl; lia]. }
  destruct (Nat.eqb_spec (length (ratings r)) 0) as [E|_]; [lia|].
  set (p := rating_sum (ratings r)) in *.
  set (q := Z.of_nat (length (ratings r))) in *.
  destruct (tenths_fdiv p q) as [Hneg Hn]; [lia | lia | lia |].
  cbv zeta in Hn.
  pose proof (Z.div_mod (20 * p + q) (2 * q) ltac:(lia)) as Hdm.
  pose proof (Z.mod_pos_bound (20 * p + q) (2 * q) ltac:(lia)) as Hr.
  exists (JS.tenths (JS.fdiv p q)). split.
  - unfold JS.toFixed1. by rewrite Hneg.
  - destruct Hn as [->|[Htie ->]]; nia.
Qed.

Lemma rating_sum_unanimous v rs :
  Forall (fun x => rt_rating x = v) rs -> rating_sum rs = v * Z.of_nat (length rs).
Proof.
  induction rs as [|x rs IH] using rev_ind; intros Hall.
  - unfold rating_sum. simpl. lia.
  - apply Forall_app in Hall as [Hrs Hx]. rewrite Forall_singleton in Hx.
    rewrite rating_sum_app, length_app, Nat2Z.inj_add, (IH Hrs), Hx. simpl. lia.
Qed.

(** X13: when all ratings of a recipe have the same value [v], the average
    is [v] followed by [.0], without rounding error. *)
Theorem averageRating_unanimous r v :
  1 <= v <= 5 ->
  ratings r <> [] ->
  Forall (fun x => rt_rating x = v) (ratings r) ->
  Z.of_nat (length (ratings r)) < 2 ^ 46 ->
  averageRating r = JStr (JS.decimal v +:+ ".0").
Proof.
  intros Hv Hne Hall Hlen. unfold averageRating.
  pose proof (rating_sum_unanimous v _ Hall) as Hsum.
  assert (Hpos : 0 < Z.of_nat (length (ratings r))).
  { destruct (ratings r); [done | simpl; lia]. }
  destruct (Nat.eqb_spec (length (ratings r)) 0) as [E|_]; [lia|].
  rewrite Hsum. set (q := Z.of_nat (length (ratings r))) in *.
  destruct (tenths_fdiv (v * q) q) as [Hneg Hn]; [lia | nia | nia |].
  cbv zeta in Hn.
  assert (Hh : (20 * (v * q) + q) / (2 * q) = 10 * v) by (apply div_between; nia).
  assert (Hm : (20 * (v * q) + q) mod (2 * q) = q).
  { symmetry. apply (Z.mod_unique_pos _ _ (10 * v)); lia. }
  rewrite Hh, Hm in Hn. destruct Hn as [Hn|[Hq _]]; [|lia].
  unfold JS.toFixed1. rewrite Hneg, Hn. unfold JS.render_tenths.
  replace (10 * v / 10) with v by (symmetry; apply div_between; lia).
  replace (10 * v mod 10) with 0
    by (symmetry; rewrite Z.mul_comm; apply Z.mod_mul; lia).
  reflexivity.
Qed.

(** * Reading by author and favourites *)


Lemma populate_app rs a b : populate rs (a ++ b) = populate rs a ++ populate rs b.
Proof. unfold populate. apply omap_app. Qed.

Lemma populate_elem rs ids x :
  x ∈ populate rs ids <-> _id x ∈ ids /\ findById rs (_id x) = Some x.
Proof.
  unfold populate. rewrite list_elem_of_omap. split.
  - intros (id & Hid & Hx). pose proof (findById_id _ _ _ Hx) as <-. done.
  - intros [Hid Hx]. by exists (_id x).
Qed.

Lemma populate_cons rs i ids :
  populate rs (i :: ids)
  = match findById rs i with
    | Some x => x :: populate rs ids
    | None => populate rs ids
    end.
Proof. reflexivity. Qed.

Lemma populate_filter (rs : list recipe) (ids : list objectId) (id : objectId) :
  populate rs (List.filter (fun x => negb (String.eqb x id)) ids)
  = List.filter (fun x => negb (has_id id x)) (populate rs ids).
Proof.
  induction ids as [|i ids IH]; [done|].
  cbn [List.filter]. rewrite populate_cons.
  assert (Hx : forall x, findById rs i = Some x -> has_id id x = String.eqb i id).
  { intros x Ex. unfold has_id. by rewrite (findById_id _ _ _ Ex). }
  destruct (String.eqb i id) eqn:E; cbn [negb]; rewrite ?populate_cons, IH;
    (destruct (findById rs i) as [x|] eqn:Ex; [|done]);
    cbn [List.filter]; cbv beta; by rewrite (Hx x eq_refl).
Qed.

(** X15: the favourites listing of a user holds the stored recipes of the
    user's favourite ids, in their order; after a successful add the added
    recipe is at its end, and after a remove the recipes with that id are
    gone and the others keep their order. *)
Theorem favorites_listing_follows id uid st u :
  findUserById (users st) uid = Some u ->
  get_favorites uid st = Found (populate (recipes st) (favoriteRecipes u)) /\
  (forall x, x ∈ populate (recipes st) (favoriteRecipes u) ->
             _id x ∈ favoriteRecipes u /\ x ∈ recipes st) /\
  (forall r, findById (recipes st) id = Some r ->
             includes (favoriteRecipes u) id = false ->
             get_favorites uid (favorite uid id true st).2
             = Found (populate (recipes st) (favoriteRecipes u) ++ [r])) /\
  get_favorites uid (favorite uid id false st).2
  = Found (List.filter (fun x => negb (has_id id x))
             (populate (recipes st) (favoriteRecipes u))).
Proof.
  intros Hu. pose proof (findUserById_id _ _ _ Hu) as Huid.
  split; [unfold get_favorites; by rewrite Hu|]. split; [|split].
  - intros x Hx. apply populate_elem in Hx as [H1 H2].
    split; [done|]. by eapply findById_In.
  - intros r Hr Hin.
    destruct (favorite_add_then_remove id uid st r u Hr Hu Hin) as (-> & _).
    unfold get_favorites. simpl. subst uid.
    rewrite (findUserById_saveUser (users st) u (set_favoriteRecipes _ u) Hu).
    simpl. rewrite populate_app. unfold populate at 2. simpl. by rewrite Hr.
  - unfold favorite, favorite_remove. rewrite Hu. unfold get_favorites. simpl.
    subst uid.
    rewrite (findUserById_saveUser (users st) u (set_favoriteRecipes _ u) Hu).
    simpl. by rewrite populate_filter.
Qed.

(** * The profile update *)

Lemma supplied_some p s : supplied p = Some s <-> p = Some s /\ s <> ""%string.
Proof.
  unfold supplied, JS.truthy. destruct p as [[|c t]|].
  - split; [done | by intros [[= <-] H]].
  - split; [by intros [= <-] | by intros [H _]].
  - split; [done | by intros [H _]].
Qed.

Lemma isLength_spec lo hi s :
  isLength lo hi s = true <-> (lo <= String.length s <= hi)%nat.
Proof. unfold isLength. rewrite andb_true_iff, !Nat.leb_le. done. Qed.

Lemma update_profile_issued authed id b d :
  update_profile authed id b = UpdateIssued d ->
  authed = id /\
  optional (isLength 3 20) (pf_username b) = true /\
  optional (isLength 0 500) (pf_bio b) = true /\
  d = mkProfileFields (supplied (pf_username b)) (supplied (pf_bio b))
        (supplied (pf_avatar b)).
Proof.
  unfold update_profile. destruct (String.eqb_spec authed id); [|done]. simpl.
  destruct (optional (isLength 3 20) (pf_username b)); [|done].
  destruct (optional (isLength 0 500) (pf_bio b)); [|done]. simpl.
  by intros [= <-].
Qed.

(** X16: the profile update is refused with 403 whenever the acting user is
    not the user of the path, whatever the body; a username outside 3..20
    characters or a bio over 500 is a validation error; an accepted update
    writes the username as given, and writes bio and avatar only when they
    are not empty, so an empty bio or avatar leaves the stored one. *)
Theorem update_profile_outcome authed id b :
  (authed <> id -> update_profile authed id b = Forbidden) /\
  (forall s, authed = id -> pf_username b = Some s ->
             ~ (3 <= String.length s <= 20)%nat ->
             update_profile authed id b = UpdateInvalid) /\
  (forall s, authed = id -> pf_bio b = Some s -> (500 < String.length s)%nat ->
             update_profile authed id b = UpdateInvalid) /\
  (forall d, update_profile authed id b = UpdateIssued d ->
     authed = id /\
     pf_username d = pf_username b /\
     (forall s, pf_username d = Some s -> (3 <= String.length s <= 20)%nat) /\
     (forall s, pf_bio d = Some s <-> pf_bio b = Some s /\ s <> ""%string) /\
     (forall s, pf_bio d = Some s -> (String.length s <= 500)%nat) /\
     (forall s, pf_avatar d = Some s <-> pf_avatar b = Some s /\ s <> ""%string)).
Proof.
  split; [|split; [|split]].
  - intros Hne. unfold update_profile. destruct (String.eqb_spec authed id); done.
  - intros s -> Hs Hlen. unfold update_profile. rewrite String.eqb_refl, Hs. simpl.
    destruct (isLength 3 20 s) eqn:E; [|done].
    apply isLength_spec in E. lia.
  - intros s -> Hs Hlen. unfold update_profile. rewrite String.eqb_refl, Hs. simpl.
    destruct (isLength 0 500 s) eqn:E; [|by rewrite andb_false_r].
    apply isLength_spec in E. lia.
  - intros d Hd. destruct (update_profile_issued _ _ _ _ Hd) as (-> & Hu & Hb & ->).
    cbn [pf_username pf_bio pf_avatar].
    split; [done|]. split; [|split; [|split; [|split]]].
    + destruct (pf_username b) as [[|c t]|]; simpl in *; done.
    + intros s Hs. apply supplied_some in Hs as [Hs _].
      rewrite Hs in Hu. by apply isLength_spec.
    + intros s. apply supplied_some.
    + intros s Hs. apply supplied_some in Hs as [Hs _].
      rewrite Hs in Hb. apply isLength_spec in Hb. lia.
    + intros s. apply supplied_some.
Qed.



(** * Splitting the ingredient names *)

Lemma split_on_nonempty sep s : JS.split_on sep s <> [].
Proof.
  destruct s as [|c t]; simpl; [done|].
  destruct (Ascii.eqb c sep); [done|]. by destruct (JS.split_on sep t).
Qed.

Lemma split_on_no_sep sep s w : w ∈ JS.split_on sep s -> has_char sep w = false.
Proof.
  revert w. induction s as [|c t IH]; simpl; intros w Hw.
  - apply list_elem_of_singleton in Hw as ->. done.
  - destruct (Ascii.eqb c sep) eqn:E.
    + apply elem_of_cons in Hw as [->|Hw]; [done|auto].
    + destruct (JS.split_on sep t) as [|w0 ws]; simpl in *.
      * apply list_elem_of_singleton in Hw as ->. simpl. by rewrite E.
      * apply elem_of_cons in Hw as [->|Hw].
        -- simpl. rewrite E. simpl. apply IH. by left.
        -- apply IH. by right.
Qed.

Lemma split_on_plain sep w : has_char sep w = false -> JS.split_on sep w = [w].
Proof.
  induction w as [|c t IH]; simpl; [done|].
  intros H. apply orb_false_elim in H as [Hc Ht]. rewrite Hc, (IH Ht). done.
Qed.

Lemma split_on_app sep w rest :
  has_char sep w = false ->
  JS.split_on sep (w +:+ String sep rest) = w :: JS.split_on sep rest.
Proof.
  induction w as [|c t IH]; simpl.
  - intros _. by rewrite Ascii.eqb_refl.
  - intros H. apply orb_false_elim in H as [Hc Ht]. rewrite Hc, (IH Ht). done.
Qed.

Lemma split_on_join sep ws :
  ws <> [] -> Forall (fun w => has_char sep w = false) ws ->
  JS.split_on sep (join_with sep ws) = ws.
Proof.
  intros Hne Hall. induction Hall as [|w ws Hw Hws IH]; [done|].
  destruct ws as [|w' ws']; simpl.
  - by apply split_on_plain.
  - rewrite split_on_app by done. f_equal. by apply IH.
Qed.

Lemma join_split_on sep s : join_with sep (JS.split_on sep s) = s.
Proof.
  induction s as [|c t IH]; simpl; [done|].
  destruct (Ascii.eqb_spec c sep) as [->|Hne].
  - pose proof (split_on_nonempty sep t) as Hn.
    destruct (JS.split_on sep t) as [|w ws] eqn:E; [done|].
    simpl. by rewrite <- IH.
  - pose proof (split_on_nonempty sep t) as Hn.
    destruct (JS.split_on sep t) as [|w ws] eqn:E; [done|].
    simpl in *. destruct ws; simpl in *; by rewrite <- IH.
Qed.

Lemma has_char_app c s t :
  has_char c (s +:+ t) = has_char c s || has_char c t.
Proof. induction s as [|d s IH]; simpl; [done|]. by rewrite IH, orb_assoc. Qed.

Lemma has_char_rev_app c s acc :
  has_char c (String.rev_app s acc) = has_char c s || has_char c acc.
Proof.
  revert acc. induction s as [|d s IH]; intros acc; simpl; [done|].
  rewrite IH. simpl. destruct (Ascii.eqb d c), (has_char c s); done.
Qed.

Lemma has_char_rev c s : has_char c (String.rev s) = has_char c s.
Proof. unfold String.rev. rewrite has_char_rev_app. apply orb_false_r. Qed.

Lemma has_char_skip_spaces c s :
  has_char c s = false -> has_char c (JS.skip_spaces s) = false.
Proof.
  induction s as [|d s IH]; simpl; [done|]. intros H.
  destruct (JS.is_space d); [|done].
  apply orb_false_elim in H as [_ H]. by apply IH.
Qed.

(** Trimming brings no separator into a piece. *)
Lemma has_char_trim c s : has_char c s = false -> has_char c (JS.trim s) = false.
Proof.
  intros H. unfold JS.trim. rewrite has_char_rev.
  apply has_char_skip_spaces. rewrite has_char_rev.
  by apply has_char_skip_spaces.
Qed.

Section Ingredients.

Variable text_search : string -> recipe -> bool.

Lemma matches_with_ingredients s r :
  s <> ""%string ->
  matches text_search (build_filter (with_ingredients s)) r
  = existsb (fun i => existsb (String.eqb (i_name i))
                        (map JS.trim (JS.split_on ","%char s)))
            (ingredients r).
Proof. intros Hs. destruct s as [|c t]; [done|]. reflexivity. Qed.

Lemma names_exists names ings :
  existsb (fun i => existsb (String.eqb (i_name i)) names) ings = true
  <-> exists i, i ∈ ings /\ i_name i ∈ names.
Proof.
  rewrite existsb_exists. split.
  - intros (i & Hi & Hn). apply existsb_exists in Hn as (n & Hn & Heq).
    apply String.eqb_eq in Heq. subst n. exists i. by rewrite !list_elem_of_In.
  - intros (i & Hi & Hn). exists i. rewrite <- list_elem_of_In.
    split; [done|]. apply existsb_exists. exists (i_name i).
    rewrite <- list_elem_of_In, String.eqb_eq. done.
Qed.

(** X17: for a non-empty list of names without commas (other than the
    single empty name), the query [ingredients=n1,n2,...] matches exactly
    the recipes that have an ingredient whose name is one of these names
    with the white space at its two ends removed, as the [trim] setter of
    [ingredients.name] leaves them in the condition. *)
Theorem ingredient_names_filter ws r :
  ws <> [] -> ws <> [""%string] ->
  Forall (fun w => has_char ","%char w = false) ws ->
  (matches text_search (build_filter (with_ingredients (join_with ","%char ws))) r
   = true
   <-> exists i, i ∈ ingredients r /\ i_name i ∈ map JS.trim ws).
Proof.
  intros Hne Hne' Hall.
  assert (Hs : join_with ","%char ws <> ""%string).
  { destruct ws as [|w [|w' ws']]; simpl; [done| |].
    - intros ->. done.
    - by destruct w. }
  rewrite (matches_with_ingredients _ r Hs), (split_on_join _ ws Hne Hall).
  apply names_exists.
Qed.

(** X18: a recipe all of whose ingredient names contain a comma is matched
    by no query that gives the [ingredients] parameter. *)
Theorem comma_names_never_match q s r :
  q_ingredients q = Some s -> s <> ""%string ->
  Forall (fun i => has_char ","%char (i_name i) = true) (ingredients r) ->
  matches text_search (build_filter q) r = false.
Proof.
  intros Hq Hs Hall. unfold matches, build_filter. cbn [f_ingredients].
  rewrite Hq. destruct s as [|c t]; [done|]. cbn [supplied JS.truthy fmap option_fmap option_map in_match].
  match goal with |- _ && ?x = false => assert (Hx : x = false); [|by rewrite Hx, andb_false_r] end.
  apply not_true_iff_false. rewrite names_exists. intros (i & Hi & Hn).
  apply list_elem_of_fmap in Hn as (w & Hw & Hn).
  apply split_on_no_sep, (has_char_trim ","%char) in Hn. rewrite <- Hw in Hn.
  rewrite Forall_forall in Hall. specialize (Hall i Hi). congruence.
Qed.

End Ingredients.

(** * Decimal bounds *)

Lemma digit_of_decimal c k :
  List.In (c, k)
    [("0"%char, 0); ("1"%char, 1); ("2"%char, 2); ("3"%char, 3); ("4"%char, 4);
     ("5"%char, 5); ("6"%char, 6); ("7"%char, 7); ("8"%char, 8); ("9"%char, 9)] ->
  JS.digit_of 10 c = Some k.
Proof. simpl. intros H. repeat (destruct H as [[= <- <-]|H]; [reflexivity|]). done. Qed.

Lemma digits_from_uint acc d :
  JS.digits_from 10 (Some acc) (NilEmpty.string_of_uint d)
  = Some (uint_value acc d).
Proof.
  revert acc. induction d; intros acc; simpl; [done|..];
    rewrite IHd; f_equal; f_equal; lia.
Qed.

Lemma skip_spaces_digit c t :
  JS.is_space c = false -> JS.skip_spaces (String c t) = String c t.
Proof. intros H. simpl. by rewrite H. Qed.

Lemma digits_from_cons c k acc t :
  JS.digit_of 10 c = Some k ->
  JS.digits_from 10 acc (String c t)
  = JS.digits_from 10 (Some (10 * default 0 acc + k)) t.
Proof. intros H. simpl. by rewrite H. Qed.

Lemma to_double_small n : 0 <= n < 2 ^ 53 -> JS.to_double n = n.
Proof.
  intros Hn. unfold JS.to_double.
  destruct (Z.leb_spec (Z.log2 n - 52) 0) as [|Hsh]; [done|].
  destruct (Z.eq_dec n 0) as [->|Hz]; [done|].
  assert (Z.log2 n < 53) by (apply Z.log2_lt_pow2; lia). lia.
Qed.

Lemma parseInt_uint d :
  JS.parseInt (NilZero.string_of_uint d) = JS.Num (JS.to_double (uint_value 0 d)).
Proof.
  unfold JS.parseInt, NilZero.string_of_uint.
  destruct d as [|l|l|l|l|l|l|l|l|l|l]; try reflexivity;
    cbn [NilEmpty.string_of_uint];
    rewrite skip_spaces_digit by reflexivity;
    try destruct l;
    cbn [NilEmpty.string_of_uint JS.strip_sign JS.strip_radix];
    repeat (erewrite digits_from_cons by reflexivity);
    rewrite ?digits_from_uint; cbn [JS.digits_from];
    rewrite Z.mul_1_l; reflexivity.
Qed.

Lemma of_uint_acc_value d acc :
  Z.pos (Pos.of_uint_acc d acc) = uint_value (Z.pos acc) d.
Proof.
  revert acc. induction d; intros acc; simpl; [done|..];
    rewrite IHd; f_equal; lia.
Qed.

Lemma of_uint_value d : Z.of_N (Pos.of_uint d) = uint_value 0 d.
Proof.
  induction d; simpl; try done;
    rewrite of_uint_acc_value; reflexivity.
Qed.

Lemma parseInt_decimal n : 0 <= n < 2 ^ 53 -> JS.parseInt (JS.decimal n) = JS.Num n.
Proof.
  intros Hn. unfold JS.decimal. rewrite parseInt_uint. f_equal.
  rewrite <- of_uint_value.
  change (Pos.of_uint (N.to_uint (Z.to_N n))) with (N.of_uint (N.to_uint (Z.to_N n))).
  rewrite DecimalN.Unsigned.of_to, Z2N.id by lia. by apply to_double_small.
Qed.

Lemma decimal_nonempty n : JS.decimal n <> ""%string.
Proof.
  unfold JS.decimal, NilZero.string_of_uint.
  by destruct (N.to_uint (Z.to_N n)).
Qed.

Section Bounds.

Variable text_search : string -> recipe -> bool.

(** X19: for every integer [n] with [0 <= n < 2^53], [parseInt] reads the
    decimal writing of [n] back as [n], and the query [maxPrepTime=n] is
    accepted by the store and matches exactly the recipes whose [prepTime]
    is at most [n]. *)
Theorem decimal_bound_reads_back n r :
  0 <= n < 2 ^ 53 ->
  JS.parseInt (JS.decimal n) = JS.Num n /\
  castable (build_filter (max_prep (JS.decimal n))) = true /\
  (matches text_search (build_filter (max_prep (JS.decimal n))) r = true
   <-> prepTime r <= n).
Proof.
  intros Hn. pose proof (parseInt_decimal n Hn) as Hp.
  pose proof (decimal_nonempty n) as Hne.
  split; [done|].
  unfold castable, matches, build_filter, max_prep.
  cbn [q_cuisine q_diet q_difficulty q_search q_maxPrepTime q_maxCookTime
       q_maxCalories q_ingredients f_cuisine f_diet f_difficulty f_text
       f_prepTime f_cookTime f_calories f_ingredients].
  destruct (JS.decimal n) as [|c t] eqn:E; [done|].
  cbn [supplied JS.truthy fmap option_fmap option_map].
  rewrite Hp. split; [done|].
  cbn [eq_match text_match lte_match in_match castable_bound andb].
  by rewrite !andb_true_r, Z.leb_le.
Qed.

End Bounds.

(** * The further properties on sample data *)

Lemma rate_idempotent_witness :
  valid_rating 4 = true /\
  findById (recipes one_user) "r1" = Some (sample "r1" 0 []) /\
  rate 300 "r1" "u1" 4 (rate 200 "r1" "u1" 4 one_user).2
  = (Rated, (rate 200 "r1" "u1" 4 one_user).2).
Proof.
  split; [reflexivity|]. split; [reflexivity|].
  apply (rate_idempotent 200 300 "r1" "u1" 4 one_user (sample "r1" 0 []));
    reflexivity.
Defined.

Lemma rate_frame_witness :
  valid_rating 5 = true /\
  findById (recipes two_users) "r1" = Some (sample "r1" 10 []) /\
  users (rate 200 "r1" "u0" 5 two_users).2 = users two_users /\
  findById (recipes (rate 200 "r1" "u0" 5 two_users).2) "r2"
  = Some (sample "r2" 20 []).
Proof.
  split; [reflexivity|]. split; [reflexivity|].
  destruct (rate_frame 200 "r1" "u0" 5 two_users (sample "r1" 10 []))
    as (Hu & _ & Hother & _); [reflexivity | reflexivity |].
  split; [exact Hu|]. rewrite Hother; [reflexivity | discriminate].
Defined.

Lemma failure_changes_nothing_witness :
  is_success (step (OpRate 200 "r9" "u1" 3) one_user).1 = false /\
  (step (OpRate 200 "r9" "u1" 3) one_user).2 = one_user.
Proof.
  split; [reflexivity|].
  apply (failure_changes_nothing (OpRate 200 "r9" "u1" 3) one_user). reflexivity.
Defined.

Lemma recipe_history_witness :
  findById (recipes one_user) "r1" = Some (sample "r1" 0 []) /\
  exists r',
    findById
      (recipes (run [OpRate 200 "r1" "u1" 4; OpComment 300 "r1" "u1" "Good."]
                    one_user)) "r1" = Some r' /\
    evolves (sample "r1" 0 []) r'.
Proof.
  split; [reflexivity|].
  apply (recipe_history _ one_user "r1" (sample "r1" 0 [])). reflexivity.
Defined.

Lemma add_comment_appends_witness :
  "Good."%string <> ""%string /\
  findById (recipes one_user) "r1" = Some (sample "r1" 0 []) /\
  comment_text_ok (JS.trim "Good.") = true /\
  (add_comment 300 "r1" "u1" "Good." one_user).1
  = Commented (mkComment "u1" "Good." 300).
Proof.
  split; [discriminate|]. split; [reflexivity|]. split; [reflexivity|].
  destruct (add_comment_appends 300 "r1" "u1" "Good." one_user (sample "r1" 0 []))
    as (H & _); [discriminate | reflexivity | reflexivity |].
  exact H.
Defined.

Lemma blank_comment_fails_witness :
  "  "%string <> ""%string /\
  findById (recipes one_user) "r1" = Some (sample "r1" 0 []) /\
  add_comment 300 "r1" "u1" "  " one_user = (ServerError, one_user).
Proof.
  split; [discriminate|]. split; [reflexivity|].
  apply (blank_comment_fails 300 "r1" "u1" "  " one_user (sample "r1" 0 []));
    [discriminate | repeat constructor | reflexivity].
Defined.

Lemma favorites_stay_distinct_witness :
  distinct_favorites two_users /\
  distinct_favorites
    (run [OpFavorite "u0" "r1" true; OpFavorite "u0" "r1" true;
          OpFavorite "u1" "r2" false] two_users).
Proof.
  assert (H : distinct_favorites two_users).
  { unfold distinct_favorites. simpl.
    repeat constructor; intros Hin; inversion Hin. }
  split; [exact H|]. apply favorites_stay_distinct. exact H.
Defined.

Lemma favorite_add_then_remove_witness :
  findById (recipes two_users) "r1" = Some (sample "r1" 10 []) /\
  findUserById (users two_users) "u0" = Some (mkUser "u0" []) /\
  includes [] "r1" = false /\
  (favorite "u0" "r1" true two_users).1 = FavoriteAdded /\
  favorite "u0" "r1" false (favorite "u0" "r1" true two_users).2
  = (FavoriteRemoved, two_users).
Proof.
  split; [reflexivity|]. split; [reflexivity|]. split; [reflexivity|].
  destruct (favorite_add_then_remove "r1" "u0" two_users (sample "r1" 10 [])
              (mkUser "u0" [])) as (Ha & _ & Hr);
    [reflexivity | reflexivity | reflexivity |].
  split; [by rewrite Ha | exact Hr].
Defined.


Lemma reachable_recipes_are_valid_witness :
  reachable dup_rated_twice /\
  new_recipe 100 "r1" "u1" (pasta_with [("u1", 2); ("u1", 4)])
    ∈ recipes dup_rated_twice /\
  Forall in_range
    (ratings (new_recipe 100 "r1" "u1" (pasta_with [("u1", 2); ("u1", 4)]))).
Proof.
  assert (Hreach : reachable dup_rated_twice) by (by eexists [], _).
  assert (Hin : new_recipe 100 "r1" "u1" (pasta_with [("u1", 2); ("u1", 4)])
                  ∈ recipes dup_rated_twice) by (vm_compute; left).
  split; [exact Hreach|]. split; [exact Hin|].
  destruct (reachable_recipes_are_valid _ _ Hreach Hin) as (_ & H & _). exact H.
Defined.

Lemma averageRating_between_1_and_5_witness :
  Forall in_range (ratings rated_5_4_3) /\
  ratings rated_5_4_3 <> [] /\
  exists n, averageRating rated_5_4_3 = JStr (JS.render_tenths n) /\ 10 <= n <= 50.
Proof.
  assert (Hr : Forall in_range (ratings rated_5_4_3)).
  { repeat constructor; vm_compute; discriminate. }
  split; [exact Hr|]. split; [discriminate|].
  apply (averageRating_between_1_and_5 rated_5_4_3 Hr); [discriminate|reflexivity].
Defined.

Lemma averageRating_unanimous_witness :
  Forall (fun x => rt_rating x = 4) (ratings steady_fours) /\
  averageRating steady_fours = JStr "4.0".
Proof.
  assert (Hr : Forall (fun x => rt_rating x = 4) (ratings steady_fours)).
  { repeat constructor. }
  split; [exact Hr|].
  apply (averageRating_unanimous steady_fours 4);
    [lia | discriminate | exact Hr | reflexivity].
Defined.

Lemma favorites_listing_follows_witness :
  findUserById (users two_users) "u1" = Some (mkUser "u1" ["r2"]) /\
  get_favorites "u1" two_users = Found [sample "r2" 20 []] /\
  get_favorites "u1" (favorite "u1" "r1" true two_users).2
  = Found [sample "r2" 20 []; sample "r1" 10 []] /\
  get_favorites "u1" (favorite "u1" "r2" false two_users).2 = Found [].
Proof.
  split; [reflexivity|].
  destruct (favorites_listing_follows "r1" "u1" two_users (mkUser "u1" ["r2"]))
    as (H1 & _ & H2 & _); [reflexivity|].
  destruct (favorites_listing_follows "r2" "u1" two_users (mkUser "u1" ["r2"]))
    as (_ & _ & _ & H3); [reflexivity|].
  split; [exact H1|]. split; [|exact H3].
  apply (H2 (sample "r1" 10 [])); reflexivity.
Defined.

Lemma ingredient_names_filter_witness :
  Forall (fun w => has_char ","%char w = false) ["rice"; "spaghetti"]%string /\
  matches any_text
    (build_filter (with_ingredients "rice,spaghetti")) (sample "r1" 0 []) = true.
Proof.
  assert (Hall : Forall (fun w => has_char ","%char w = false)
                   ["rice"; "spaghetti"]%string) by (repeat constructor).
  split; [exact Hall|].
  apply (ingredient_names_filter any_text ["rice"; "spaghetti"]%string
           (sample "r1" 0 [])); [discriminate | discriminate | exact Hall |].
  exists (mkIngredient "spaghetti" "200 g"). split; [left | right; left].
Defined.

Lemma comma_names_never_match_witness :
  Forall (fun i => has_char ","%char (i_name i) = true) (ingredients comma_recipe) /\
  matches any_text (build_filter (with_ingredients "salt, fine")) comma_recipe
  = false.
Proof.
  assert (Hall : Forall (fun i => has_char ","%char (i_name i) = true)
                   (ingredients comma_recipe)) by (repeat constructor).
  split; [exact Hall|].
  apply (comma_names_never_match any_text (with_ingredients "salt, fine")
           "salt, fine" comma_recipe); [reflexivity | discriminate | exact Hall].
Defined.

Lemma decimal_bound_reads_back_witness :
  JS.decimal 20 = "20"%string /\
  JS.parseInt (JS.decimal 20) = JS.Num 20 /\
  (matches any_text (build_filter (max_prep (JS.decimal 20))) (sample "r1" 0 [])
   = true <-> prepTime (sample "r1" 0 []) <= 20).
Proof.
  split; [reflexivity|].
  destruct (decimal_bound_reads_back any_text 20 (sample "r1" 0 [])) as (H1 & _ & H2);
    [lia|].
  split; [exact H1 | exact H2].
Defined.
